(** * PCI alias requests (nova/pci/request.py)

    A shallow embedding of [nova.pci.request]: the alias table built from
    [CONF.pci.alias], its validators, the translation of a flavor's alias
    string into [InstancePCIRequest]s, and the lookup of the request behind a
    VIF's PCI device.

    Conventions.
    - A Python [str] is a [string]; its characters are the code points below
      256. A [Dict[str, str]] whose order is never observed is a
      [gmap string string]; the alias table, whose iteration order is
      observed, is an association list in insertion order.
    - A raised exception is the left injection of a sum; the library and
      built-in exceptions carry the text of [str(exc)].
    - What the module takes from other modules (the field constants, the
      uuid generator, the compute-node directory, oslo's boolean parser, the
      schema library's message text) is gathered in the class [Externals]. *)

From Stdlib Require Import ZArith String Ascii List Sorted DecimalString.
From stdpp Require Import base option list sorting gmap strings fin_maps.

Local Open Scope string_scope.
Local Open Scope Z_scope.

(** ** Python strings *)

Module PyStr.

(** [str.isspace] on one character of the range modelled: the whitespace
    [str.strip] removes. *)
Definition isspace (c : ascii) : bool :=
  let n := nat_of_ascii c in
  ((9 <=? n) && (n <=? 13) || (28 <=? n) && (n <=? 32)
   || (n =? 133) || (n =? 160))%nat.

Fixpoint lstrip (s : string) : string :=
  match s with
  | String c s' => if isspace c then lstrip s' else s
  | EmptyString => EmptyString
  end.

Fixpoint rstrip (s : string) : string :=
  match s with
  | String c s' =>
      match rstrip s' with
      | EmptyString => if isspace c then EmptyString else String c EmptyString
      | r => String c r
      end
  | EmptyString => EmptyString
  end.

(** [s.strip()] *)
Definition strip (s : string) : string := rstrip (lstrip s).

(** [s.split(sep)] for a separator of one character: never empty. *)
Fixpoint split (sep : ascii) (s : string) : list string :=
  match s with
  | EmptyString => [EmptyString]
  | String c s' =>
      if Ascii.eqb c sep then EmptyString :: split sep s'
      else match split sep s' with
           | w :: ws => String c w :: ws
           | [] => [String c EmptyString]
           end
  end.

(** [sep.join(l)] *)
Fixpoint join (sep : string) (l : list string) : string :=
  match l with
  | [] => EmptyString
  | [x] => x
  | x :: l' => x ++ sep ++ join sep l'
  end.

(** [repr(s)] of a string free of quotes, backslashes and control
    characters, as [KeyError] shows its key. *)
Definition repr (s : string) : string := "'" ++ s ++ "'".

(** The whitespace [int] skips around a numeral: [int] leaves the
    characters below 128 to C's [isspace] and maps the others through
    [str.isspace]. *)
Definition int_isspace (c : ascii) : bool :=
  let n := nat_of_ascii c in
  ((9 <=? n) && (n <=? 13) || (n =? 32) || (n =? 133) || (n =? 160))%nat.

Fixpoint int_lstrip (s : string) : string :=
  match s with
  | String c s' => if int_isspace c then int_lstrip s' else s
  | EmptyString => EmptyString
  end.

Fixpoint int_rstrip (s : string) : string :=
  match s with
  | String c s' =>
      match int_rstrip s' with
      | EmptyString =>
          if int_isspace c then EmptyString else String c EmptyString
      | r => String c r
      end
  | EmptyString => EmptyString
  end.

Definition digit (c : ascii) : option Z :=
  let n := nat_of_ascii c in
  if ((48 <=? n) && (n <=? 57))%nat then Some (Z.of_nat n - 48) else None.

Definition underscore : ascii := "_"%char.

(** The digits of a numeral, most significant first, with their count.
    [after_digit] tells whether the previous character was a digit: an
    underscore is accepted only between two digits. *)
Fixpoint digits (after_digit : bool) (acc : Z) (n : nat) (s : string)
  : option (Z * nat) :=
  match s with
  | EmptyString => if after_digit then Some (acc, n) else None
  | String c s' =>
      match digit c with
      | Some d => digits true (10 * acc + d) (S n) s'
      | None =>
          if Ascii.eqb c underscore && after_digit then
            match s' with
            | String c' _ =>
                match digit c' with
                | Some _ => digits false acc n s'
                | None => None
                end
            | EmptyString => None
            end
          else None
      end
  end.

(** [int(s)]: the integer, or the message of the [ValueError] raised.
    [max_str_digits] is the interpreter's limit on the number of digits
    ([sys.get_int_max_str_digits()], 0 for no limit). Whether [int] returns,
    and what, is Python's for every text; the message is Python's for a text
    that [repr] above covers and that has no more characters than the
    limit. *)
Definition int (max_str_digits : nat) (s : string) : string + Z :=
  let body := int_rstrip (int_lstrip s) in
  let '(sign, num) :=
    match body with
    | String "+" r => (1, r)
    | String "-" r => (-1, r)
    | _ => (1, body)
    end in
  match digits false 0 0 num with
  | Some (v, n) =>
      if ((0 <? max_str_digits) && (max_str_digits <? n))%nat then
        inl ("Exceeds the limit ("
             ++ NilEmpty.string_of_uint (Nat.to_uint max_str_digits)
             ++ " digits) for integer string conversion: value has "
             ++ NilEmpty.string_of_uint (Nat.to_uint n)
             ++ " digits; use sys.set_int_max_str_digits() "
             ++ "to increase the limit")
      else inr (sign * v)
  | None => inl ("invalid literal for int() with base 10: " ++ repr s)
  end.

End PyStr.

(** ** Exceptions *)

(** The exceptions the module raises or lets through. [PciInvalidAlias]
    keeps the two ways the module calls it: with a positional message, or
    with the [reason] keyword. [NotFound] stands for [exception.NotFound] and
    its subclasses as the compute-node lookup raises them;
    [PciRequestFromVIFNotFound] is one more subclass of it, the one the module
    raises itself. [ValidationError] is the one of jsonschema, with its [message]
    attribute. The last four are built-in exceptions, or exceptions of
    libraries taken for them: [KeyError] with its key, the others with the
    text of [str(exc)]. *)
Inductive exn : Type :=
| PciInvalidAlias (message : option string) (reason : option string)
| PciRequestAliasNotDefined (alias : string)
| PciRequestFromVIFNotFound (pci_slot : string) (node_id : Z)
| NotFound (message : string)
| ValidationError (message : string)
| KeyError (key : string)
| IndexError (message : string)
| ValueError (message : string)
| Exception (message : string).

#[global] Instance exn_eq_dec : EqDecision exn.
Proof. solve_decision. Defined.

#[global] Instance exn_ret : MRet (sum exn) := fun _ x => inr x.
#[global] Instance exn_bind : MBind (sum exn) := fun _ _ f m =>
  match m with
  | inl e => inl e
  | inr x => f x
  end.

Definition raise {A : Type} (e : exn) : exn + A := inl e.

(** [isinstance(e, exception.NotFound)], what an [except exception.NotFound]
    clause catches: [NotFound] and its subclass [PciRequestFromVIFNotFound]. *)
Definition isinstance_NotFound (e : exn) : bool :=
  match e with
  | NotFound _ | PciRequestFromVIFNotFound _ _ => true
  | _ => false
  end.

(** ** JSON values and the configuration *)

(** What [jsonutils.loads] returns. *)
#[local] Unset Elimination Schemes.
Inductive jvalue : Type :=
| JNull
| JBool (b : bool)
| JInt (n : Z)
| JFloat (literal : string)
| JString (s : string)
| JArray (items : list jvalue)
| JObject (members : gmap string jvalue).
#[local] Set Elimination Schemes.

(** A device spec of an alias: [Dict[str, str]]. *)
Abbreviation DeviceSpec := (gmap string string).

(** [Alias = Dict[str, Tuple[str, List[Dict[str, str]]]]], in insertion
    order. *)
Abbreviation Alias := (list (string * (string * list DeviceSpec))).

(** The options the module reads. Each JSON text of [CONF.pci.alias] is
    given by what [jsonutils.loads] makes of it: the exception it raises or
    the value it returns. *)
Record Conf : Type := {
  pci_alias : list (exn + jvalue);
  pci_in_placement : bool
}.

(** Insertion-ordered dictionaries. *)
Module ODict.
Section ODict.
Context {V : Type}.

(** [d[k]], [k in d] *)
Fixpoint get (k : string) (d : list (string * V)) : option V :=
  match d with
  | [] => None
  | (k', v) :: d' => if String.eqb k k' then Some v else get k d'
  end.

(** [d[k] = v]: in place for a key present, at the end for a new key. *)
Fixpoint set (k : string) (v : V) (d : list (string * V))
  : list (string * V) :=
  match d with
  | [] => [(k, v)]
  | (k', v') :: d' =>
      if String.eqb k k' then (k, v) :: d' else (k', v') :: set k v d'
  end.

(** [list(d)] *)
Definition keys (d : list (string * V)) : list string := map fst d.
End ODict.
End ODict.

(** What the module takes from the rest of the process. *)
Class Externals : Type := {
  (** [obj_fields.PciDeviceType.STANDARD], [.SRIOV_PF], [.SRIOV_VF] *)
  STANDARD : string;
  SRIOV_PF : string;
  SRIOV_VF : string;
  (** [obj_fields.PCINUMAAffinityPolicy.ALL] and [.LEGACY] *)
  PCINUMAAffinityPolicy_ALL : list string;
  LEGACY : string;
  (** Whether [utils.PCI_VENDOR_PATTERN] matches a string. *)
  PCI_VENDOR_PATTERN : string -> bool;
  (** [exc.message] of the [ValidationError] that [jsonschema.validate]
      raises for an instance violating [_ALIAS_SCHEMA]. *)
  validation_message : jvalue -> string;
  (** [strutils.bool_from_string(s, strict=True)] *)
  bool_from_string : string -> exn + bool;
  (** [str(exc)] of an exception of nova's own ([NovaException]'s formatted
      message) or of jsonschema. *)
  format_message : exn -> string;
  (** [sys.get_int_max_str_digits()], 0 for no limit. *)
  int_max_str_digits : nat;
  (** [uuidutils.generate_uuid()]: the value of the n-th call made in the
      process. *)
  generate_uuid : nat -> string;
  (** [ctx.RequestContext] and
      [objects.ComputeNode.get_by_host_and_nodename(context, host, node).id] *)
  RequestContext : Type;
  get_by_host_and_nodename : RequestContext -> string -> string -> exn + Z
}.

(** The order of [str]: by code points, lexicographic. *)
Definition str_le (a b : string) : Prop := String.leb a b = true.

#[global] Instance str_le_dec (a b : string) : Decision (str_le a b).
Proof. unfold str_le. apply _. Defined.

#[global] Instance str_le_total : Total str_le.
Proof. intros a b. apply String.leb_total. Qed.

(** ** The alias table: [get_alias_from_config] and its validators *)

Section AliasConfig.

Context `{Externals}.

Variable CONF : Conf.

(** The [properties] of [_ALIAS_SCHEMA]: every property is of type string,
    with the further constraint given here. *)
Definition _ALIAS_SCHEMA_properties : list (string * (string -> bool)) :=
  [ ("name", fun s => (1 <=? String.length s)%nat
                      && (String.length s <=? 256)%nat);
    ("capability_type", fun s => bool_decide (s ∈ ["pci"]));
    ("product_id", PCI_VENDOR_PATTERN);
    ("vendor_id", PCI_VENDOR_PATTERN);
    ("device_type", fun s => bool_decide (s ∈ [STANDARD; SRIOV_PF; SRIOV_VF]));
    ("numa_policy", fun s => bool_decide (s ∈ PCINUMAAffinityPolicy_ALL));
    ("resource_class", fun _ => true);
    ("traits", fun _ => true);
    ("live_migratable", fun _ => true) ].

Definition _ALIAS_SCHEMA_required : list string := ["name"].

(** Whether an instance conforms to [_ALIAS_SCHEMA]: an object, without
    additional properties, each property a conforming string, the required
    ones present. *)
Definition _ALIAS_SCHEMA (instance : jvalue) : bool :=
  match instance with
  | JObject d =>
      forallb (fun '(k, v) =>
                 match ODict.get k _ALIAS_SCHEMA_properties, v with
                 | Some ok, JString s => ok s
                 | _, _ => false
                 end) (map_to_list d)
      && forallb (fun k => bool_decide (is_Some (d !! k)))
                 _ALIAS_SCHEMA_required
  | _ => false
  end.

(** [jsonschema.validate(spec, _ALIAS_SCHEMA)] *)
Definition validate (instance : jvalue) : exn + unit :=
  if _ALIAS_SCHEMA instance then mret tt
  else raise (ValidationError (validation_message instance)).

(** The members of a validated object: all of them strings. *)
Definition members_str (instance : jvalue) : DeviceSpec :=
  match instance with
  | JObject d => omap (fun v => match v with JString s => Some s | _ => None end) d
  | _ => ∅
  end.

(** [str(exc)] *)
Definition str (e : exn) : string :=
  match e with
  | IndexError m | ValueError m | Exception m => m
  | KeyError k => PyStr.repr k
  | _ => format_message e
  end.

(** One turn of the loop of [get_alias_from_config] up to the lookup in
    the table (lines 192 to 211): the name, the NUMA policy and the spec
    of one configured entry. *)
Definition read_alias (jsonspecs : exn + jvalue)
  : exn + (string * string * DeviceSpec) :=
  loaded ← jsonspecs;
  _ ← validate loaded;
  let spec := members_str loaded in
  (* name = spec.pop('name').strip() *)
  name ← match spec !! "name" with
         | Some n => mret (PyStr.strip n)
         | None => raise (KeyError "name")
         end;
  let spec := delete "name" spec in
  (* numa_policy = spec.pop('numa_policy', None) *)
  let numa_policy := spec !! "numa_policy" in
  let spec := delete "numa_policy" spec in
  let numa_policy :=
    match numa_policy with
    | Some p => if String.eqb p "" then LEGACY else p
    | None => LEGACY
    end in
  (* dev_type = spec.pop('device_type', None) *)
  let dev_type := spec !! "device_type" in
  let spec := delete "device_type" spec in
  let spec :=
    match dev_type with
    | Some t => if String.eqb t "" then spec else <["dev_type" := t]> spec
    | None => spec
    end in
  (* live_migratable = spec.pop('live_migratable', None) *)
  let live_migratable := spec !! "live_migratable" in
  let spec := delete "live_migratable" spec in
  spec ← match live_migratable with
         | Some lm =>
             b ← bool_from_string lm;
             mret (<["live_migratable" := if b : bool then "true" else "false"]> spec)
         | None => mret spec
         end;
  mret (name, numa_policy, spec).

(** The rest of the turn (lines 213 to 225): a new name enters the table,
    a known one has its NUMA policy and device type compared and the spec
    appended. *)
Definition merge_alias (aliases : Alias) (name numa_policy : string)
    (spec : DeviceSpec) : exn + Alias :=
  match ODict.get name aliases with
  | None => mret (ODict.set name (numa_policy, [spec]) aliases)
  | Some (policy0, specs) =>
      if negb (String.eqb policy0 numa_policy) then
        raise (PciInvalidAlias None
                 (Some ("NUMA policy mismatch for alias '" ++ name ++ "'")))
      else
        first ← match specs with
                | s0 :: _ => mret s0
                | [] => raise (IndexError "list index out of range")
                end;
        known ← match first !! "dev_type" with
                | Some t => mret t
                | None => raise (KeyError "dev_type")
                end;
        new ← match spec !! "dev_type" with
              | Some t => mret t
              | None => raise (KeyError "dev_type")
              end;
        if negb (String.eqb known new) then
          raise (PciInvalidAlias None
                   (Some ("Device type mismatch for alias '" ++ name ++ "'")))
        else mret (ODict.set name (policy0, (specs ++ [spec])%list) aliases)
  end.

(** The [for] loop over [CONF.pci.alias]. *)
Fixpoint merge_aliases (jaliases : list (exn + jvalue)) (aliases : Alias)
  : exn + Alias :=
  match jaliases with
  | [] => mret aliases
  | jsonspecs :: rest =>
      '(name, numa_policy, spec) ← read_alias jsonspecs;
      aliases ← merge_alias aliases name numa_policy spec;
      merge_aliases rest aliases
  end.

Definition multispec_message (names : string) : string :=
  "The PCI alias(es) " ++ names ++ " have multiple specs but "
  ++ "[filter_scheduler]pci_in_placement is True. The PCI in "
  ++ "Placement feature only supports one spec per alias. You can "
  ++ "assign the same resource_class to multiple [pci]device_spec "
  ++ "matchers to allow using different devices for the same alias.".

Definition alias_with_multiple_specs (aliases : Alias) : list string :=
  map fst (List.filter (fun item => (1 <? List.length (snd (snd item)))%nat)
                       aliases).

Definition _validate_multispec (aliases : Alias) : exn + unit :=
  if pci_in_placement CONF then
    match alias_with_multiple_specs aliases with
    | [] => mret tt
    | names =>
        raise (PciInvalidAlias
                 (Some (multispec_message (PyStr.join "," names))) None)
    end
  else mret tt.

(** [key in spec] *)
Definition contains (key : string) (spec : DeviceSpec) : bool :=
  match spec !! key with
  | Some _ => true
  | None => false
  end.

(** The names of the aliases with a spec that [fails], as the nested loops
    of [_validate_required_ids] add them to their set. *)
Definition names_failing (fails : DeviceSpec -> bool) (aliases : Alias)
  : gset string :=
  foldl (fun acc item =>
           foldl (fun acc spec =>
                    if fails spec then {[fst item]} ∪ acc else acc)
                 acc (snd (snd item)))
        ∅ aliases.

(** [sorted(s)] of a set of strings *)
Definition sorted (s : gset string) : list string :=
  merge_sort str_le (elements s).

Definition no_ids_or_rc_message (names : string) : string :=
  "The PCI alias(es) " ++ names ++ " does not have vendor_id and product_id "
  ++ "fields set or resource_class field set.".

Definition no_ids_message (names : string) : string :=
  "The PCI alias(es) " ++ names ++ " does not have vendor_id and product_id "
  ++ "fields set.".

Definition _validate_required_ids (aliases : Alias) : exn + unit :=
  if pci_in_placement CONF then
    let alias_without_ids_or_rc :=
      names_failing
        (fun spec =>
           let ids := contains "vendor_id" spec && contains "product_id" spec in
           let rc := contains "resource_class" spec in
           negb ids && negb rc)
        aliases in
    if bool_decide (alias_without_ids_or_rc ≠ ∅) then
      raise (PciInvalidAlias
               (Some (no_ids_or_rc_message
                        (PyStr.join "," (sorted alias_without_ids_or_rc))))
               None)
    else mret tt
  else
    let alias_without_ids :=
      names_failing
        (fun spec =>
           let ids := contains "vendor_id" spec && contains "product_id" spec in
           negb ids)
        aliases in
    if bool_decide (alias_without_ids ≠ ∅) then
      raise (PciInvalidAlias
               (Some (no_ids_message
                        (PyStr.join "," (sorted alias_without_ids))))
               None)
    else mret tt.

Definition _validate_aliases (aliases : Alias) : exn + unit :=
  _ ← _validate_multispec aliases;
  _validate_required_ids aliases.

(** The three [except] clauses of [get_alias_from_config]. *)
Definition except_clauses (e : exn) : exn :=
  match e with
  | PciInvalidAlias _ _ => e
  | ValidationError message => PciInvalidAlias None (Some message)
  | _ => PciInvalidAlias None (Some (str e))
  end.

(** The body of [get_alias_from_config], which [functools.cache] wraps
    (Python's [get_alias_from_config.__wrapped__]). *)
Definition get_alias_from_config_wrapped : exn + Alias :=
  match merge_aliases (pci_alias CONF) [] with
  | inl e => raise (except_clauses e)
  | inr aliases =>
      _ ← _validate_aliases aliases;
      mret aliases
  end.

End AliasConfig.

(** ** The state of the process *)

(** What the module keeps or consumes between calls: the table that
    [functools.cache] holds for [get_alias_from_config], the number of calls
    made to [uuidutils.generate_uuid], and the warnings sent to [LOG]. *)
Record State : Type := {
  alias_cache : option Alias;
  uuid_calls : nat;
  warnings : list string
}.

(** A call: it may raise, and it leaves a state in both cases. *)
Definition M (A : Type) : Type := State -> (exn + A) * State.

#[global] Instance M_ret : MRet M := fun _ x st => (inr x, st).
#[global] Instance M_bind : MBind M := fun _ _ f m st =>
  match m st with
  | (inl e, st') => (inl e, st')
  | (inr x, st') => f x st'
  end.

Definition throw {A : Type} (e : exn) : M A := fun st => (inl e, st).

(** ** Objects *)

Module InstancePCIRequest.
(** [objects.InstancePCIRequest], with the fields the module sets. A field
    that may be [None] is an option. *)
Record t : Type := {
  count : Z;
  spec : list DeviceSpec;
  alias_name : option string;
  numa_policy : option string;
  request_id : option string
}.

(** Modelled from the spec: the class is declared in
    [nova/objects/instance_pci_requests.py], and the specification has its
    [numa_policy] as one of a fixed enumeration.
    [objects.InstancePCIRequest(...)] with the five keywords the module
    passes, all evaluated before the call: the constructor stores the values,
    and its field [numa_policy], an enumeration over
    [PCINUMAAffinityPolicy.ALL], refuses any other string with a
    [ValueError]. *)
Definition new `{Externals} (count : Z) (spec : list DeviceSpec)
    (alias_name numa_policy request_id : string) : exn + t :=
  if bool_decide (numa_policy ∈ PCINUMAAffinityPolicy_ALL) then
    inr {| count := count;
           spec := spec;
           alias_name := Some alias_name;
           numa_policy := Some numa_policy;
           request_id := Some request_id |}
  else inl (ValueError ("Field value " ++ numa_policy ++ " is invalid")).
End InstancePCIRequest.

Module InstancePCIRequests.
Record t : Type := { requests : list InstancePCIRequest.t }.
End InstancePCIRequests.

Module PciDevice.
(** [objects.PciDevice], with the fields the module reads. *)
Record t : Type := {
  compute_node_id : Z;
  address : string;
  request_id : option string
}.
End PciDevice.

Module Instance.
Record t : Type := {
  host : string;
  node : string;
  pci_devices : list PciDevice.t;
  pci_requests : InstancePCIRequests.t
}.
End Instance.

Module VIF.
(** [network_model.VIF]: [vif['profile']] is [None] or a dictionary. *)
Record t : Type := { profile : option (gmap string string) }.
End VIF.

Module Flavor.
(** [objects.Flavor]: [extra_specs] may be unset. *)
Record t : Type := { extra_specs : option (gmap string string) }.
End Flavor.

(** ** Requests from a flavor, and the request behind a VIF *)

Section Requests.

Context `{Externals}.

Variable CONF : Conf.

(** [get_alias_from_config()] under [functools.cache]: the table of the
    first call that returned, computed again after a call that raised. *)
Definition get_alias_from_config : M Alias := fun st =>
  match alias_cache st with
  | Some aliases => (inr aliases, st)
  | None =>
      match get_alias_from_config_wrapped CONF with
      | inr aliases =>
          (inr aliases,
           {| alias_cache := Some aliases;
              uuid_calls := uuid_calls st;
              warnings := warnings st |})
      | inl e => (inl e, st)
      end
  end.

(** [uuidutils.generate_uuid()] *)
Definition uuidutils_generate_uuid : M string := fun st =>
  (inr (generate_uuid (uuid_calls st)),
   {| alias_cache := alias_cache st;
      uuid_calls := S (uuid_calls st);
      warnings := warnings st |}).

(** [LOG.warning(msg)] *)
Definition LOG_warning (msg : string) : M unit := fun st =>
  (inr tt,
   {| alias_cache := alias_cache st;
      uuid_calls := uuid_calls st;
      warnings := (warnings st ++ [msg])%list |}).

(** [a or b] on an optional string and a string *)
Definition or_ (a : option string) (b : string) : string :=
  match a with
  | Some x => if String.eqb x "" then b else x
  | None => b
  end.

(** The [for] loop of [_translate_alias_to_requests]: [pairs] is the list
    of the split pairs still to visit. *)
Fixpoint translate_pairs (pci_aliases : Alias)
    (affinity_policy : option string) (pairs : list (list string))
    (pci_requests : list InstancePCIRequest.t)
  : M (list InstancePCIRequest.t) :=
  match pairs with
  | [] => mret pci_requests
  | item :: rest =>
      match item with
      | [name; count] =>
          let name := PyStr.strip name in
          match ODict.get name pci_aliases with
          | None => throw (PciRequestAliasNotDefined name)
          | Some (numa_policy, spec) =>
              let policy := or_ affinity_policy numa_policy in
              match PyStr.int int_max_str_digits count with
              | inl msg => throw (ValueError msg)
              | inr count =>
                  request_id ← uuidutils_generate_uuid;
                  match InstancePCIRequest.new count spec name policy
                                               request_id with
                  | inl e => throw e
                  | inr request =>
                      translate_pairs pci_aliases affinity_policy rest
                        (pci_requests ++ [request])%list
                  end
              end
          end
      | [] => throw (ValueError "not enough values to unpack (expected 2, got 0)")
      | [_] => throw (ValueError "not enough values to unpack (expected 2, got 1)")
      | _ => throw (ValueError "too many values to unpack (expected 2)")
      end
  end.

Definition _translate_alias_to_requests (alias_spec : string)
    (affinity_policy : option string) : M (list InstancePCIRequest.t) :=
  pci_aliases ← get_alias_from_config;
  translate_pairs pci_aliases affinity_policy
    (map (PyStr.split ":") (PyStr.split "," alias_spec)) [].

Definition get_pci_requests_from_flavor (flavor : Flavor.t)
    (affinity_policy : option string) : M InstancePCIRequests.t :=
  pci_requests ←
    match Flavor.extra_specs flavor with
    | Some extra_specs =>
        match extra_specs !! "pci_passthrough:alias" with
        | Some alias_spec =>
            _translate_alias_to_requests alias_spec affinity_policy
        | None => mret []
        end
    | None => mret []
    end;
  mret {| InstancePCIRequests.requests := pci_requests |}.

Definition get_instance_pci_request_from_vif (context : RequestContext)
    (instance : Instance.t) (vif : VIF.t)
  : M (option InstancePCIRequest.t) :=
  (* vif['profile'].get('pci_slot') if vif['profile'] else None *)
  let vif_pci_dev_addr :=
    match VIF.profile vif with
    | Some profile =>
        if bool_decide (profile ≠ ∅) then profile !! "pci_slot" else None
    | None => None
    end in
  match vif_pci_dev_addr with
  | None => mret None
  | Some vif_pci_dev_addr =>
      if String.eqb vif_pci_dev_addr "" then mret None
      else
        match get_by_host_and_nodename context (Instance.host instance)
                                       (Instance.node instance) with
        | inl e =>
            (* except exception.NotFound *)
            if isinstance_NotFound e then
              _ ← LOG_warning
                    ("expected to find compute node with host "
                     ++ Instance.host instance ++ " and node "
                     ++ Instance.node instance
                     ++ " when getting instance PCI request from VIF");
              mret None
            else throw e
        | inr cn_id =>
            let found_pci_dev :=
              List.find (fun pci_dev =>
                           (PciDevice.compute_node_id pci_dev =? cn_id)
                           && String.eqb (PciDevice.address pci_dev)
                                         vif_pci_dev_addr)
                        (Instance.pci_devices instance) in
            match found_pci_dev with
            | None => mret None
            | Some found_pci_dev =>
                match List.find
                        (fun pci_req =>
                           bool_decide
                             (InstancePCIRequest.request_id pci_req
                              = PciDevice.request_id found_pci_dev))
                        (InstancePCIRequests.requests
                           (Instance.pci_requests instance)) with
                | Some pci_req => mret (Some pci_req)
                | None =>
                    throw (PciRequestFromVIFNotFound vif_pci_dev_addr cn_id)
                end
            end
        end
  end.

End Requests.

(** ** A sample setting *)

(** Values for the externals as a deployment has them, and a few configured
    entries, on which the definitions above evaluate. *)
Module Sample.

Definition hexdigit (c : ascii) : bool :=
  let n := nat_of_ascii c in
  ((48 <=? n) && (n <=? 57) || (65 <=? n) && (n <=? 70)
   || (97 <=? n) && (n <=? 102))%nat.

(** ["^([\da-fA-F]{4})$"] under [re.search]: four hexadecimal digits, and
    at most a newline after them. *)
Definition vendor_pattern (s : string) : bool :=
  match s with
  | String a (String b (String c (String d r))) =>
      hexdigit a && hexdigit b && hexdigit c && hexdigit d
      && (String.eqb r "" || String.eqb r (String "010" ""))
  | _ => false
  end.

Definition lower (c : ascii) : ascii :=
  let n := nat_of_ascii c in
  if ((65 <=? n) && (n <=? 90))%nat then ascii_of_nat (n + 32) else c.

Fixpoint lowered (s : string) : string :=
  match s with
  | String c s' => String (lower c) (lowered s')
  | EmptyString => EmptyString
  end.

Definition TRUE_STRINGS : list string := ["1"; "t"; "true"; "on"; "y"; "yes"].
Definition FALSE_STRINGS : list string := ["0"; "f"; "false"; "off"; "n"; "no"].

Definition bool_of_string (subject : string) : exn + bool :=
  let l := lowered (PyStr.strip subject) in
  if bool_decide (l ∈ TRUE_STRINGS) then inr true
  else if bool_decide (l ∈ FALSE_STRINGS) then inr false
  else inl (ValueError
              ("Unrecognized value '" ++ subject
               ++ "', acceptable values are: '0', '1', 'f', 'false', 'n', "
               ++ "'no', 'off', 'on', 't', 'true', 'y', 'yes'")).

Fixpoint tally (n : nat) : string :=
  match n with
  | O => EmptyString
  | S n' => String "1" (tally n')
  end.

Definition message_of (e : exn) : string :=
  match e with
  | PciInvalidAlias (Some m) _ => m
  | PciInvalidAlias None (Some r) => "Invalid PCI alias definition: " ++ r
  | PciRequestAliasNotDefined a => "PCI alias " ++ a ++ " is not defined"
  | NotFound m => m
  | _ => "An unknown exception occurred."
  end.

Definition externals : Externals := {|
  STANDARD := "type-PCI";
  SRIOV_PF := "type-PF";
  SRIOV_VF := "type-VF";
  PCINUMAAffinityPolicy_ALL := ["required"; "legacy"; "preferred"; "socket"];
  LEGACY := "legacy";
  PCI_VENDOR_PATTERN := vendor_pattern;
  validation_message := fun _ => "instance is not valid under the alias schema";
  bool_from_string := bool_of_string;
  format_message := message_of;
  int_max_str_digits := 4300;
  generate_uuid := fun n => "uuid-" ++ tally n;
  RequestContext := unit;
  get_by_host_and_nodename := fun _ host node =>
    if String.eqb host "host1" && String.eqb node "node1" then inr 7
    else inl (NotFound ("Compute host " ++ host ++ " could not be found."))
|}.

(** A configured entry: a JSON object with string members. *)
Definition entry (members : list (string * string)) : exn + jvalue :=
  inr (JObject (list_to_map (map (fun m => (fst m, JString (snd m))) members))).

Definition gpu_a : exn + jvalue :=
  entry [("name", "gpu"); ("vendor_id", "10de"); ("product_id", "1db4");
         ("device_type", "type-PCI"); ("numa_policy", "legacy")].

Definition gpu_b : exn + jvalue :=
  entry [("name", "gpu"); ("vendor_id", "10de"); ("product_id", "1eb8");
         ("device_type", "type-PCI")].

(** [gpu_b] without its [device_type]. *)
Definition gpu_untyped : exn + jvalue :=
  entry [("name", "gpu"); ("vendor_id", "10de"); ("product_id", "1eb8")].

(** [gpu_b] under another NUMA policy, and as a physical function. *)
Definition gpu_required : exn + jvalue :=
  entry [("name", "gpu"); ("vendor_id", "10de"); ("product_id", "1eb8");
         ("device_type", "type-PCI"); ("numa_policy", "required")].

Definition gpu_pf : exn + jvalue :=
  entry [("name", "gpu"); ("vendor_id", "10de"); ("product_id", "1eb8");
         ("device_type", "type-PF")].

(** [gpu_b] with a member that the schema does not know, under the policy
    of [gpu_a] and under another one. *)
Definition gpu_extra : exn + jvalue :=
  entry [("name", "gpu"); ("vendor_id", "10de"); ("product_id", "1eb8");
         ("device_type", "type-PCI"); ("numa_policy", "legacy");
         ("colour", "green")].

Definition gpu_extra_required : exn + jvalue :=
  entry [("name", "gpu"); ("vendor_id", "10de"); ("product_id", "1eb8");
         ("device_type", "type-PCI"); ("numa_policy", "required");
         ("colour", "green")].

(** A physical function under the name [a]. *)
Definition gpu_pf_a : exn + jvalue :=
  entry [("name", "a"); ("vendor_id", "10de"); ("product_id", "1eb8");
         ("device_type", "type-PF"); ("numa_policy", "required")].

(** Two entries of one name, type and policy, without identifiers. *)
Definition rc_a : exn + jvalue :=
  entry [("name", "gpu"); ("resource_class", "CUSTOM_GPU");
         ("device_type", "type-PCI")].

Definition rc_b : exn + jvalue :=
  entry [("name", "gpu"); ("resource_class", "CUSTOM_GPU_B");
         ("device_type", "type-PCI")].

(** Entries of the names [b] and [a] with a device type and nothing else. *)
Definition bare_b : exn + jvalue :=
  entry [("name", "b"); ("device_type", "type-PCI")].

Definition bare_a : exn + jvalue :=
  entry [("name", "a"); ("device_type", "type-PCI")].

Definition spec_bare : DeviceSpec := list_to_map [("dev_type", "type-PCI")].

(** The table that [bare_b; bare_a; bare_a; bare_b] merge into. *)
Definition bare_table : Alias :=
  [("b", ("legacy", [spec_bare; spec_bare]));
   ("a", ("legacy", [spec_bare; spec_bare]))].

Definition nic : exn + jvalue :=
  entry [("name", "a"); ("vendor_id", "8086"); ("product_id", "1572");
         ("device_type", "type-PF"); ("numa_policy", "required")].

Definition qat : exn + jvalue :=
  entry [("name", "b"); ("vendor_id", "8086"); ("product_id", "0443")].

Definition conf (jaliases : list (exn + jvalue)) (strict : bool) : Conf :=
  {| pci_alias := jaliases; pci_in_placement := strict |}.

Definition spec_a : DeviceSpec :=
  list_to_map [("vendor_id", "10de"); ("product_id", "1db4");
               ("dev_type", "type-PCI")].

Definition spec_b : DeviceSpec :=
  list_to_map [("vendor_id", "10de"); ("product_id", "1eb8");
               ("dev_type", "type-PCI")].

Definition spec_untyped : DeviceSpec :=
  list_to_map [("vendor_id", "10de"); ("product_id", "1eb8")].

Definition spec_pf : DeviceSpec :=
  list_to_map [("vendor_id", "10de"); ("product_id", "1eb8");
               ("dev_type", "type-PF")].

Definition spec_rc_a : DeviceSpec :=
  list_to_map [("resource_class", "CUSTOM_GPU"); ("dev_type", "type-PCI")].

Definition spec_rc_b : DeviceSpec :=
  list_to_map [("resource_class", "CUSTOM_GPU_B"); ("dev_type", "type-PCI")].

Definition start : State :=
  {| alias_cache := None; uuid_calls := 0; warnings := [] |}.

(** The table of [gpu_a] alone, and the state that holds it. *)
Definition gpu_table : Alias := [("gpu", ("legacy", [spec_a]))].

Definition gpu_cached : State :=
  {| alias_cache := Some gpu_table; uuid_calls := 0; warnings := [] |}.

(** The table of [nic] and [qat]. *)
Definition ab_table : Alias :=
  [("a", ("required",
          [list_to_map [("vendor_id", "8086"); ("product_id", "1572");
                        ("dev_type", "type-PF")]]));
   ("b", ("legacy",
          [list_to_map [("vendor_id", "8086"); ("product_id", "0443")]]))].

Definition ab_cached : State :=
  {| alias_cache := Some ab_table; uuid_calls := 0; warnings := [] |}.

(** An instance on the node 7 of [externals], with two requests and the
    devices bound for them; the same address is bound on another node. *)
Definition request_0 : InstancePCIRequest.t :=
  {| InstancePCIRequest.count := 1;
     InstancePCIRequest.spec := [spec_a];
     InstancePCIRequest.alias_name := Some "gpu";
     InstancePCIRequest.numa_policy := Some "legacy";
     InstancePCIRequest.request_id := Some "uuid-" |}.

Definition request_1 : InstancePCIRequest.t :=
  {| InstancePCIRequest.count := 1;
     InstancePCIRequest.spec := [];
     InstancePCIRequest.alias_name := None;
     InstancePCIRequest.numa_policy := None;
     InstancePCIRequest.request_id := Some "uuid-1" |}.

Definition device_elsewhere : PciDevice.t :=
  {| PciDevice.compute_node_id := 8;
     PciDevice.address := "0000:81:00.1";
     PciDevice.request_id := Some "uuid-" |}.

Definition device_here : PciDevice.t :=
  {| PciDevice.compute_node_id := 7;
     PciDevice.address := "0000:81:00.1";
     PciDevice.request_id := Some "uuid-1" |}.

Definition instance_at (host : string) (requests : list InstancePCIRequest.t)
  : Instance.t :=
  {| Instance.host := host;
     Instance.node := "node1";
     Instance.pci_devices := [device_elsewhere; device_here];
     Instance.pci_requests := {| InstancePCIRequests.requests := requests |} |}.

Definition context : @RequestContext externals := tt.

Definition vif_pci : VIF.t :=
  {| VIF.profile := Some {[ "pci_slot" := "0000:81:00.1" ]} |}.

Definition vif_plain : VIF.t :=
  {| VIF.profile := Some {[ "physical_network" := "physnet1" ]} |}.

End Sample.

(** ** The vocabulary of the specification *)

(** The rule a spec has to pass in the required-identifier check, in the
    words of the specification: identifiers are [vendor_id] and [product_id]
    both present; in strict mode a [resource_class] does as well. *)
Definition passes (strict : bool) (s : DeviceSpec) : Prop :=
  (is_Some (s !! "vendor_id") ∧ is_Some (s !! "product_id"))
  ∨ (strict = true ∧ is_Some (s !! "resource_class")).

(** An alias of the table with a spec that does not pass. *)
Definition offending (strict : bool) (aliases : Alias) (name : string) : Prop :=
  ∃ policy specs s,
    (name, (policy, specs)) ∈ aliases ∧ s ∈ specs ∧ ¬ passes strict s.

(** An alias of the table with more than one spec. *)
Definition multispec (aliases : Alias) (name : string) : Prop :=
  ∃ policy specs, (name, (policy, specs)) ∈ aliases ∧ (1 < length specs)%nat.

#[global] Instance passes_dec strict s : Decision (passes strict s).
Proof. unfold passes. apply _. Defined.

(** The test of the required-identifier check in each mode, as the two
    branches of [_validate_required_ids] write it. *)
Definition lacks_required (strict : bool) (spec : DeviceSpec) : bool :=
  let ids := contains "vendor_id" spec && contains "product_id" spec in
  if strict then
    let rc := contains "resource_class" spec in
    negb ids && negb rc
  else negb ids.

(** What one [name:count] pair, already split, contributes: the request of
    the alias of that name, with the count that [int] reads. *)
Definition emitted `{Externals} (aliases : Alias) (override : option string)
    (item : list string)
    (req : InstancePCIRequest.t) : Prop :=
  ∃ name count policy specs,
    item = [name; count]
    ∧ ODict.get (PyStr.strip name) aliases = Some (policy, specs)
    ∧ PyStr.int int_max_str_digits count = inr (InstancePCIRequest.count req)
    ∧ InstancePCIRequest.spec req = specs
    ∧ InstancePCIRequest.alias_name req = Some (PyStr.strip name)
    ∧ InstancePCIRequest.numa_policy req = Some (or_ override policy).

(** The message of the required-identifier check in each mode. *)
Definition required_ids_message (strict : bool) : string -> string :=
  if strict then no_ids_or_rc_message else no_ids_message.

(** The entries of a configuration as [read_alias] reads them, and what
    the entries of one name contribute: their specs in the order of the
    configuration, and the NUMA policy of the first of them. *)
Definition named (name : string) (parsed : list (string * string * DeviceSpec))
  : list (string * string * DeviceSpec) :=
  List.filter (fun p => String.eqb (fst (fst p)) name) parsed.

Definition specs_named (name : string)
    (parsed : list (string * string * DeviceSpec)) : list DeviceSpec :=
  map snd (named name parsed).

Definition policy_named (name : string)
    (parsed : list (string * string * DeviceSpec)) : option string :=
  head (map (fun p => snd (fst p)) (named name parsed)).

(** The names of a list in the order of their first occurrence. *)
Fixpoint first_seen (names : list string) : list string :=
  match names with
  | [] => []
  | n :: rest => n :: filter (fun m => m ≠ n) (first_seen rest)
  end.

(** A [name:count] piece of an alias string that the translation accepts:
    exactly one colon, a name that the table knows once stripped, a count that
    [int] reads, and a policy, the override or else the alias's, that
    [objects.InstancePCIRequest] takes. *)
Definition well_formed `{Externals} (aliases : Alias) (override : option string)
    (piece : string) : Prop :=
  ∃ name count policy specs z,
    PyStr.split ":" piece = [name; count]
    ∧ ODict.get (PyStr.strip name) aliases = Some (policy, specs)
    ∧ PyStr.int int_max_str_digits count = inr z
    ∧ or_ override policy ∈ PCINUMAAffinityPolicy_ALL.

(** * Properties *)

(** ** Python strings on examples *)

Example strip_ex : PyStr.strip "  gpu " = "gpu".
Proof. reflexivity. Qed.

Example split_ex : PyStr.split "," "a:1,b:3" = ["a:1"; "b:3"].
Proof. reflexivity. Qed.

Example split_empty_ex : PyStr.split "," "" = [""].
Proof. reflexivity. Qed.

Example join_ex : PyStr.join "," ["a"; "b"; "c"] = "a,b,c".
Proof. reflexivity. Qed.

Example int_ex :
  map (PyStr.int 4300) ["2"; " 2 "; "+2"; "-0"; "1_0"; "007"; "-12"]
  = [inr 2; inr 2; inr 2; inr 0; inr 10; inr 7; inr (-12)].
Proof. reflexivity. Qed.

Example int_bad_ex :
  map (PyStr.int 4300) [""; "--2"; "1__0"; "0x10"]
  = [inl "invalid literal for int() with base 10: ''";
     inl "invalid literal for int() with base 10: '--2'";
     inl "invalid literal for int() with base 10: '1__0'";
     inl "invalid literal for int() with base 10: '0x10'"].
Proof. reflexivity. Qed.

(** [str.strip] takes the separators of code 28 to 31 for whitespace; [int]
    does not. *)
Example strip_separator_ex :
  PyStr.strip (String "028" "2") = "2"
  ∧ (∀ z, PyStr.int 4300 (String "028" "2") ≠ inr z)
  ∧ PyStr.int 4300 (String "011" "2") = inr 2.
Proof. split; [reflexivity|]. split; [|reflexivity]. intros z. discriminate. Qed.

Example split_more_ex :
  PyStr.split "," "a,b,,c" = ["a"; "b"; ""; "c"]
  ∧ PyStr.split ":" ":" = [""; ""]
  ∧ PyStr.split ":" "a:b:c" = ["a"; "b"; "c"]
  ∧ PyStr.split ":" "a" = ["a"].
Proof. repeat split; reflexivity. Qed.

(** ** Insertion-ordered dictionaries *)

Section ODictFacts.
Context {V : Type}.
Implicit Types (d : list (string * V)) (k : string) (v : V).

Lemma get_set_eq d k v : ODict.get k (ODict.set k v d) = Some v.
Proof.
  induction d as [|[k' v'] d IH]; simpl.
  - by rewrite String.eqb_refl.
  - destruct (String.eqb k k') eqn:E; simpl; rewrite ?String.eqb_refl, ?E; auto.
Qed.

Lemma get_set_ne d k k' v :
  k ≠ k' → ODict.get k' (ODict.set k v d) = ODict.get k' d.
Proof.
  intros Hne. induction d as [|[k0 v0] d IH]; simpl.
  - destruct (String.eqb_spec k' k); congruence.
  - destruct (String.eqb_spec k k0) as [->|]; simpl.
    + destruct (String.eqb_spec k' k0); congruence.
    + destruct (String.eqb_spec k' k0); auto.
Qed.

Lemma get_Some_elem_of d k v : ODict.get k d = Some v → (k, v) ∈ d.
Proof.
  induction d as [|[k' v'] d IH]; simpl; [done|].
  destruct (String.eqb_spec k k') as [->|].
  - intros [= ->]. left.
  - intros. right. auto.
Qed.

Lemma get_None_not_key d k : ODict.get k d = None ↔ k ∉ ODict.keys d.
Proof.
  unfold ODict.keys. induction d as [|[k' v'] d IH]; simpl.
  - split; [intros _; apply not_elem_of_nil | done].
  - rewrite not_elem_of_cons. destruct (String.eqb_spec k k') as [->|Hne].
    + split; [done | intros [? _]; done].
    + rewrite IH. split; [by split | by intros [_ ?]].
Qed.

(** A key enters at the end; a key present keeps its place. *)
Lemma keys_set d k v :
  ODict.keys (ODict.set k v d)
  = match ODict.get k d with
    | Some _ => ODict.keys d
    | None => (ODict.keys d ++ [k])%list
    end.
Proof.
  unfold ODict.keys. induction d as [|[k' v'] d IH]; simpl; [done|].
  destruct (String.eqb_spec k k') as [->|]; simpl; [done|].
  rewrite IH. by destruct (ODict.get k d).
Qed.

(** Keys stay distinct, as in a dictionary. *)
Lemma keys_set_NoDup d k v :
  NoDup (ODict.keys d) → NoDup (ODict.keys (ODict.set k v d)).
Proof.
  intros Hd. rewrite keys_set. destruct (ODict.get k d) eqn:E; [done|].
  apply NoDup_app. split; [done|]. split.
  - intros x Hx ->%list_elem_of_singleton. by apply get_None_not_key in E.
  - apply NoDup_singleton.
Qed.
End ODictFacts.

(** ** Building the alias table *)

Section AliasConfigFacts.

Context `{Externals}.

Lemma merge_aliases_app pre post aliases :
  merge_aliases (pre ++ post) aliases
  = merge_aliases pre aliases ≫= merge_aliases post.
Proof.
  revert aliases. induction pre as [|j pre IH]; intros aliases; simpl; [done|].
  destruct (read_alias j) as [e|[[name policy] s]]; simpl; [done|].
  destruct (merge_alias aliases name policy s) as [e|aliases']; simpl; [done|].
  apply IH.
Qed.

(** A first entry of a name opens an alias of one spec, at the end of the
    table. *)
Lemma merge_alias_new aliases name policy s :
  ODict.get name aliases = None →
  merge_alias aliases name policy s
  = inr (aliases ++ [(name, (policy, [s]))])%list.
Proof.
  intros Hnew. unfold merge_alias. rewrite Hnew. simpl. f_equal.
  clear -Hnew. induction aliases as [|[k v] d IH]; simpl in *; [done|].
  destruct (String.eqb name k); [done|]. f_equal. auto.
Qed.

(** A further entry of a name, of the policy stored and of the device type
    of the first spec stored, adds its spec after the others. *)
Lemma merge_alias_same aliases name policy s0 more s t :
  ODict.get name aliases = Some (policy, s0 :: more) →
  s0 !! "dev_type" = Some t →
  s !! "dev_type" = Some t →
  merge_alias aliases name policy s
  = inr (ODict.set name (policy, (s0 :: more) ++ [s])%list aliases).
Proof.
  intros Hget H0 Hs. unfold merge_alias.
  rewrite Hget, String.eqb_refl. simpl. rewrite H0, Hs. simpl.
  by rewrite String.eqb_refl.
Qed.

Lemma merge_alias_numa_mismatch aliases name policy0 specs policy s :
  ODict.get name aliases = Some (policy0, specs) →
  policy0 ≠ policy →
  merge_alias aliases name policy s
  = inl (PciInvalidAlias None
           (Some ("NUMA policy mismatch for alias '" ++ name ++ "'"))).
Proof.
  intros Hget Hne. unfold merge_alias. rewrite Hget.
  by destruct (String.eqb_spec policy0 policy).
Qed.

Lemma merge_alias_type_mismatch aliases name policy s0 more s t0 t :
  ODict.get name aliases = Some (policy, s0 :: more) →
  s0 !! "dev_type" = Some t0 →
  s !! "dev_type" = Some t →
  t0 ≠ t →
  merge_alias aliases name policy s
  = inl (PciInvalidAlias None
           (Some ("Device type mismatch for alias '" ++ name ++ "'"))).
Proof.
  intros Hget H0 Hs Hne. unfold merge_alias.
  rewrite Hget, String.eqb_refl. simpl. rewrite H0, Hs. simpl.
  by destruct (String.eqb_spec t0 t).
Qed.

Lemma merge_alias_untyped aliases name policy s0 more s :
  ODict.get name aliases = Some (policy, s0 :: more) →
  s0 !! "dev_type" = None ∨ s !! "dev_type" = None →
  merge_alias aliases name policy s = inl (KeyError "dev_type").
Proof.
  intros Hget Hnone. unfold merge_alias.
  rewrite Hget, String.eqb_refl. simpl.
  destruct (s0 !! "dev_type") as [t0|] eqn:E0; simpl; [|done].
  destruct Hnone as [|Hs]; [done|]. by rewrite Hs.
Qed.

(** Whatever the loop raises leaves [get_alias_from_config] as a
    [PciInvalidAlias]. *)
Lemma except_clauses_PciInvalidAlias e :
  ∃ message reason, except_clauses e = PciInvalidAlias message reason.
Proof. destruct e; simpl; eauto. Qed.

(** *** Reading one entry *)

(** Every member of an object that conforms to [_ALIAS_SCHEMA] is a string
    under one of the properties of the schema. *)
Lemma schema_members d k v :
  _ALIAS_SCHEMA (JObject d) = true →
  d !! k = Some v →
  ∃ ok s,
    ODict.get k _ALIAS_SCHEMA_properties = Some ok ∧ v = JString s ∧ ok s = true.
Proof.
  unfold _ALIAS_SCHEMA. intros [Hall _]%andb_true_iff Hk.
  rewrite forallb_forall in Hall.
  assert (In (k, v) (map_to_list d)) as Hin.
  { apply list_elem_of_In. by apply elem_of_map_to_list. }
  apply Hall in Hin. cbv beta iota in Hin.
  destruct (ODict.get k _ALIAS_SCHEMA_properties) as [ok|], v; try done.
  by eexists _, _.
Qed.

Lemma members_str_lookup d k :
  members_str (JObject d) !! k
  = match d !! k with
    | Some (JString s) => Some s
    | _ => None
    end.
Proof.
  unfold members_str. rewrite lookup_omap.
  destruct (d !! k) as [[]|]; done.
Qed.

(** What [read_alias] returns, in terms of the configured object: the name
    stripped, the NUMA policy or its default, and a spec that holds the
    device type under [dev_type] and the matching fields as configured. *)
Lemma read_alias_inv j name policy s :
  read_alias j = inr (name, policy, s) →
  ∃ d,
    j = inr (JObject d)
    ∧ _ALIAS_SCHEMA (JObject d) = true
    ∧ (∃ n, d !! "name" = Some (JString n) ∧ name = PyStr.strip n)
    ∧ policy = match d !! "numa_policy" with
               | Some (JString p) => if String.eqb p "" then LEGACY else p
               | _ => LEGACY
               end
    ∧ s !! "dev_type" = match d !! "device_type" with
                        | Some (JString t) =>
                            if String.eqb t "" then None else Some t
                        | _ => None
                        end
    ∧ (∀ k, k ∈ ["vendor_id"; "product_id"; "resource_class"; "traits";
                 "capability_type"] →
            s !! k = match d !! k with
                     | Some (JString v) => Some v
                     | _ => None
                     end)
    ∧ s !! "name" = None
    ∧ s !! "numa_policy" = None
    ∧ s !! "device_type" = None.
Proof.
  unfold read_alias. destruct j as [e|loaded]; [done|]. simpl.
  unfold validate. destruct (_ALIAS_SCHEMA loaded) eqn:Hschema; [|done]. simpl.
  destruct loaded as [| | | | | |d]; try done.
  assert (d !! "dev_type" = None) as Hno_dev_type.
  { destruct (d !! "dev_type") as [v|] eqn:E; [|done].
    destruct (schema_members _ _ _ Hschema E) as (ok & s' & Hget & _).
    simpl in Hget. discriminate. }
  pose proof (members_str_lookup d) as Hm.
  set (m := members_str (JObject d)) in *.
  destruct (m !! "name") as [n|] eqn:Hname; [|done]. simpl.
  set (m1 := match delete "numa_policy" (delete "name" m) !! "device_type" with
             | Some t => if String.eqb t "" then _ else _
             | None => _
             end).
  intros Hrest.
  assert (∃ s0, s = s0 ∧ (s0 = delete "live_migratable" m1
                           ∨ ∃ b, s0 = <["live_migratable" := b]>
                                         (delete "live_migratable" m1))
          ∧ name = PyStr.strip n
          ∧ policy = match delete "name" m !! "numa_policy" with
                     | Some p => if String.eqb p "" then LEGACY else p
                     | None => LEGACY
                     end) as (s0 & -> & Hs0 & -> & ->).
  { destruct (m1 !! "live_migratable") as [lm|].
    - simpl in Hrest. destruct (bool_from_string lm) as [e|b]; [done|].
      simpl in Hrest. injection Hrest as <- <- <-.
      eexists. split; [done|]. split; [right; by eexists|done].
    - simpl in Hrest. injection Hrest as <- <- <-.
      eexists. split; [done|]. split; [by left|done]. }
  assert (∀ k, k ≠ "live_migratable" →
               s0 !! k = m1 !! k) as Hthrough.
  { intros k Hk. destruct Hs0 as [->|[b ->]].
    - by rewrite lookup_delete_ne.
    - by rewrite lookup_insert_ne, lookup_delete_ne. }
  assert (∀ k, k ≠ "dev_type" → k ≠ "device_type" → k ≠ "numa_policy" →
               k ≠ "name" → m1 !! k = m !! k) as Hkept.
  { intros k ? ? ? ?. unfold m1.
    destruct (delete "numa_policy" (delete "name" m) !! "device_type") as [t|];
      [destruct (String.eqb t "")|];
      rewrite ?lookup_insert_ne by done; by rewrite !lookup_delete_ne. }
  exists d. split; [done|]. split; [done|].
  split; [|split; [|split; [|split; [|split; [|split]]]]].
  - exists n. split; [|done]. rewrite Hm in Hname.
    destruct (d !! "name") as [[]|]; congruence.
  - rewrite lookup_delete_ne, Hm by done. by destruct (d !! "numa_policy") as [[]|].
  - rewrite Hthrough by done. unfold m1.
    rewrite !lookup_delete_ne, Hm by done.
    destruct (d !! "device_type") as [[| | | |t| |]|];
      try (by rewrite !lookup_delete_ne, Hm, Hno_dev_type by done).
    destruct (String.eqb t "").
    + by rewrite !lookup_delete_ne, Hm, Hno_dev_type by done.
    + by rewrite lookup_insert_eq.
  - intros k Hk. rewrite Hthrough, Hkept, Hm; [done|..];
      intros ->; repeat (apply elem_of_cons in Hk as [?|Hk]; [done|]);
      by apply elem_of_nil in Hk.
  - rewrite Hthrough by done. unfold m1.
    destruct (delete "numa_policy" (delete "name" m) !! "device_type") as [t|];
      [destruct (String.eqb t "")|];
      rewrite ?lookup_insert_ne by done;
      by rewrite !lookup_delete_ne, lookup_delete_eq by done.
  - rewrite Hthrough by done. unfold m1.
    destruct (delete "numa_policy" (delete "name" m) !! "device_type") as [t|];
      [destruct (String.eqb t "")|];
      rewrite ?lookup_insert_ne by done;
      by rewrite !lookup_delete_ne, lookup_delete_eq by done.
  - rewrite Hthrough by done. unfold m1.
    destruct (delete "numa_policy" (delete "name" m) !! "device_type") as [t|];
      [destruct (String.eqb t "")|];
      rewrite ?lookup_insert_ne by done;
      by rewrite ?lookup_delete_eq.
Qed.

(** *** The validators *)

Lemma contains_is_Some key (s : DeviceSpec) :
  contains key s = true ↔ is_Some (s !! key).
Proof.
  unfold contains. destruct (s !! key); split; try done.
Qed.

Lemma names_failing_specs (fails : DeviceSpec → bool) (name : string)
    (specs : list DeviceSpec) (acc : gset string) (n : string) :
  n ∈ foldl (fun acc s => if fails s then {[name]} ∪ acc else acc) acc specs
  ↔ n ∈ acc ∨ (n = name ∧ ∃ s, s ∈ specs ∧ fails s = true).
Proof.
  revert acc. induction specs as [|s specs IH]; intros acc; simpl.
  - split; [by left|]. intros [?|[_ [s [Hs _]]]]; [done|].
    by apply elem_of_nil in Hs.
  - rewrite IH. destruct (fails s) eqn:E.
    + rewrite elem_of_union, elem_of_singleton. split.
      * intros [[->|?]|[-> [s' [? ?]]]].
        -- right. split; [done|]. exists s. split; [left|done].
        -- by left.
        -- right. split; [done|]. exists s'. split; [by right|done].
      * intros [?|[-> [s' [Hs' ?]]]]; [by left; right|].
        apply elem_of_cons in Hs' as [->|?]; [by left; left|].
        right. split; [done|]. by exists s'.
    + split.
      * intros [?|[-> [s' [? ?]]]]; [by left|].
        right. split; [done|]. exists s'. split; [by right|done].
      * intros [?|[-> [s' [Hs' ?]]]]; [by left|].
        apply elem_of_cons in Hs' as [->|?]; [congruence|].
        right. split; [done|]. by exists s'.
Qed.

Lemma names_failing_acc (fails : DeviceSpec → bool) (aliases : Alias)
    (acc : gset string) (n : string) :
  n ∈ foldl (fun acc item =>
               foldl (fun acc s => if fails s then {[fst item]} ∪ acc else acc)
                     acc (snd (snd item)))
            acc aliases
  ↔ n ∈ acc ∨ ∃ policy specs s,
        (n, (policy, specs)) ∈ aliases ∧ s ∈ specs ∧ fails s = true.
Proof.
  revert acc. induction aliases as [|[k [p specs]] aliases IH]; intros acc; simpl.
  - split; [by left|]. intros [?|(? & ? & ? & Hin & _)]; [done|].
    by apply elem_of_nil in Hin.
  - rewrite IH, names_failing_specs. split.
    + intros [[?|[-> (s & ? & ?)]]|(p' & specs' & s & ? & ? & ?)].
      * by left.
      * right. exists p, specs, s. split; [left|done].
      * right. exists p', specs', s. split; [by right|done].
    + intros [?|(p' & specs' & s & Hin & ? & ?)]; [by left; left|].
      apply elem_of_cons in Hin as [[= -> -> ->]|?].
      * left. right. split; [done|]. by exists s.
      * right. by exists p', specs', s.
Qed.

Lemma names_failing_elem_of (fails : DeviceSpec → bool) (aliases : Alias)
    (n : string) :
  n ∈ names_failing fails aliases
  ↔ ∃ policy specs s,
      (n, (policy, specs)) ∈ aliases ∧ s ∈ specs ∧ fails s = true.
Proof.
  unfold names_failing. rewrite names_failing_acc. split; [|by right].
  intros [Hn|?]; [|done]. by apply not_elem_of_empty in Hn.
Qed.

Lemma sorted_Sorted (names : gset string) : Sorted str_le (sorted names).
Proof. apply Sorted_merge_sort, _. Qed.

Lemma sorted_elem_of (names : gset string) n : n ∈ sorted names ↔ n ∈ names.
Proof. unfold sorted. by rewrite merge_sort_Permutation, elem_of_elements. Qed.

Lemma sorted_NoDup (names : gset string) : NoDup (sorted names).
Proof. unfold sorted. rewrite merge_sort_Permutation. apply NoDup_elements. Qed.

Lemma fails_strict_passes (s : DeviceSpec) :
  negb (contains "vendor_id" s && contains "product_id" s)
  && negb (contains "resource_class" s) = true
  ↔ ¬ passes true s.
Proof.
  unfold passes.
  rewrite andb_true_iff, !negb_true_iff, andb_false_iff.
  rewrite <- !not_true_iff_false, !contains_is_Some. split.
  - intros [Hids Hrc] [[? ?]|[_ ?]]; [destruct Hids|]; done.
  - intros Hno. split.
    + destruct (s !! "vendor_id"), (s !! "product_id");
        try (by left; intros [? ?]); try (by right; intros [? ?]).
      destruct Hno. left. by split; eexists.
    + intros ?. destruct Hno. by right.
Qed.

Lemma fails_passes (s : DeviceSpec) :
  negb (contains "vendor_id" s && contains "product_id" s) = true
  ↔ ¬ passes false s.
Proof.
  unfold passes. rewrite negb_true_iff, andb_false_iff.
  rewrite <- !not_true_iff_false, !contains_is_Some. split.
  - intros Hids [[? ?]|[? _]]; [destruct Hids|]; done.
  - intros Hno.
    destruct (s !! "vendor_id"), (s !! "product_id");
      try (by left; intros [? ?]); try (by right; intros [? ?]).
    destruct Hno. left. by split; eexists.
Qed.

(** [_validate_required_ids] in one equation for both modes. *)
Lemma validate_required_ids_eq CONF aliases :
  _validate_required_ids CONF aliases
  = let strict := pci_in_placement CONF in
    let bad := names_failing (lacks_required strict) aliases in
    if bool_decide (bad ≠ ∅) then
      inl (PciInvalidAlias
             (Some (required_ids_message strict (PyStr.join "," (sorted bad))))
             None)
    else inr tt.
Proof.
  unfold _validate_required_ids, required_ids_message, lacks_required.
  by destruct (pci_in_placement CONF).
Qed.

(** The set the check collects holds the offending aliases. *)
Lemma names_failing_offending strict aliases n :
  n ∈ names_failing (lacks_required strict) aliases ↔ offending strict aliases n.
Proof.
  rewrite names_failing_elem_of. unfold offending, lacks_required.
  destruct strict.
  - by setoid_rewrite fails_strict_passes.
  - by setoid_rewrite fails_passes.
Qed.

Lemma names_failing_empty strict aliases :
  names_failing (lacks_required strict) aliases = ∅
  ↔ ¬ ∃ name, offending strict aliases name.
Proof.
  split.
  - intros Hempty [name Hname%names_failing_offending].
    rewrite Hempty in Hname. by apply not_elem_of_empty in Hname.
  - intros Hnone. apply set_eq. intros n. split.
    + intros Hn%names_failing_offending. destruct Hnone. by exists n.
    + by intros ?%not_elem_of_empty.
Qed.

(** C4. For every alias table, the required-identifier check raises
    [PciInvalidAlias] exactly when some spec of some alias fails the rule of
    the mode: in strict mode a spec passes iff it has both [vendor_id] and
    [product_id] or has a [resource_class]; outside strict mode iff it has
    both [vendor_id] and [product_id]. The message, of which each mode has
    its own text, lists the offending alias names, each once, sorted, joined
    by commas. *)
Theorem required_ids_check CONF aliases :
  ((∃ name, offending (pci_in_placement CONF) aliases name) →
   ∃ names,
     _validate_required_ids CONF aliases
     = inl (PciInvalidAlias
              (Some (if pci_in_placement CONF then
                       "The PCI alias(es) " ++ PyStr.join "," names
                       ++ " does not have vendor_id and product_id fields set"
                       ++ " or resource_class field set."
                     else
                       "The PCI alias(es) " ++ PyStr.join "," names
                       ++ " does not have vendor_id and product_id fields set."))
              None)
     ∧ Sorted str_le names
     ∧ NoDup names
     ∧ ∀ name, name ∈ names ↔ offending (pci_in_placement CONF) aliases name)
  ∧ ((¬ ∃ name, offending (pci_in_placement CONF) aliases name) →
     _validate_required_ids CONF aliases = inr tt).
Proof.
  rewrite validate_required_ids_eq. simpl.
  set (strict := pci_in_placement CONF).
  set (bad := names_failing (lacks_required strict) aliases).
  split.
  - intros Hsome. rewrite bool_decide_eq_true_2.
    + exists (sorted bad). split.
      { subst bad strict.
        unfold required_ids_message, no_ids_or_rc_message, no_ids_message.
        by destruct (pci_in_placement CONF). }
      split; [apply sorted_Sorted|]. split; [apply sorted_NoDup|].
      intros n. rewrite sorted_elem_of. apply names_failing_offending.
    + intros Hempty. by apply names_failing_empty in Hempty.
  - intros Hnone. rewrite bool_decide_eq_false_2; [done|].
    intros Hne. apply Hne. by apply names_failing_empty.
Qed.

Lemma alias_with_multiple_specs_elem_of aliases n :
  n ∈ alias_with_multiple_specs aliases ↔ multispec aliases n.
Proof.
  unfold alias_with_multiple_specs, multispec.
  induction aliases as [|[k [p specs]] aliases IH]; simpl.
  - split; [by intros ?%elem_of_nil|].
    by intros (? & ? & ?%elem_of_nil & _).
  - destruct (Nat.ltb_spec 1 (length specs)) as [Hlt|Hge]; simpl.
    + rewrite elem_of_cons, IH. split.
      * intros [->|(p' & specs' & ? & ?)].
        -- exists p, specs. split; [left|done].
        -- exists p', specs'. split; [by right|done].
      * intros (p' & specs' & Hin & ?).
        apply elem_of_cons in Hin as [[= -> -> ->]|?]; [by left|].
        right. by exists p', specs'.
    + rewrite IH. split.
      * intros (p' & specs' & ? & ?). exists p', specs'. split; [by right|done].
      * intros (p' & specs' & Hin & ?).
        apply elem_of_cons in Hin as [[= -> -> ->]|?]; [lia|].
        by exists p', specs'.
Qed.

(** The names come in the order of the table. *)
Lemma alias_with_multiple_specs_sublist aliases :
  alias_with_multiple_specs aliases `sublist_of` ODict.keys aliases.
Proof.
  unfold alias_with_multiple_specs, ODict.keys.
  induction aliases as [|[k [p specs]] aliases IH]; simpl; [constructor|].
  destruct (1 <? length specs)%nat; simpl; by constructor.
Qed.

(** The keys of the table under construction stay distinct. *)
Lemma merge_alias_NoDup aliases name policy s aliases' :
  NoDup (ODict.keys aliases) →
  merge_alias aliases name policy s = inr aliases' →
  NoDup (ODict.keys aliases').
Proof.
  intros Hd. unfold merge_alias.
  destruct (ODict.get name aliases) as [[policy0 specs]|].
  - destruct (negb (String.eqb policy0 policy)); [done|].
    destruct specs as [|s0 more]; simpl; [done|].
    destruct (s0 !! "dev_type"); simpl; [|done].
    destruct (s !! "dev_type") as [t|]; simpl; [|done].
    destruct (negb _); [done|]. intros [= <-]. by apply keys_set_NoDup.
  - intros [= <-]. by apply keys_set_NoDup.
Qed.

Lemma merge_aliases_NoDup jaliases aliases aliases' :
  NoDup (ODict.keys aliases) →
  merge_aliases jaliases aliases = inr aliases' →
  NoDup (ODict.keys aliases').
Proof.
  revert aliases. induction jaliases as [|j jaliases IH]; intros aliases Hd; simpl.
  - by intros [= <-].
  - destruct (read_alias j) as [e|[[name policy] s]]; simpl; [done|].
    destruct (merge_alias aliases name policy s) as [e|a1] eqn:E; simpl; [done|].
    apply IH. by eapply merge_alias_NoDup.
Qed.

(** C3. In strict mode, when the merged table has an alias with more than
    one spec, building the table raises [PciInvalidAlias] with the
    multi-spec message, whose text is given here: it lists exactly the
    aliases with several specs, each once, joined by commas, in the order of
    the table. The error is that of the multi-spec check whatever the
    required-identifier check would find: [_validate_aliases] ends with the
    first check. *)
Theorem strict_multispec_fails CONF aliases :
  pci_in_placement CONF = true →
  merge_aliases (pci_alias CONF) [] = inr aliases →
  (∃ name, multispec aliases name) →
  ∃ names,
    get_alias_from_config_wrapped CONF
    = inl (PciInvalidAlias
             (Some ("The PCI alias(es) " ++ PyStr.join "," names
                    ++ " have multiple specs but [filter_scheduler]"
                    ++ "pci_in_placement is True. The PCI in Placement feature"
                    ++ " only supports one spec per alias. You can assign the"
                    ++ " same resource_class to multiple [pci]device_spec"
                    ++ " matchers to allow using different devices for the"
                    ++ " same alias."))
             None)
    ∧ names `sublist_of` ODict.keys aliases
    ∧ NoDup names
    ∧ (∀ name, name ∈ names ↔ multispec aliases name)
    ∧ _validate_aliases CONF aliases = _validate_multispec CONF aliases.
Proof.
  intros Hstrict Hmerge [name Hname].
  exists (alias_with_multiple_specs aliases).
  apply alias_with_multiple_specs_elem_of in Hname.
  assert (_validate_multispec CONF aliases
          = inl (PciInvalidAlias
                   (Some (multispec_message
                            (PyStr.join "," (alias_with_multiple_specs aliases))))
                   None)) as Hcheck.
  { unfold _validate_multispec. rewrite Hstrict.
    destruct (alias_with_multiple_specs aliases); [|done].
    by apply elem_of_nil in Hname. }
  assert (_validate_aliases CONF aliases = _validate_multispec CONF aliases)
    as Hfirst.
  { unfold _validate_aliases. by rewrite Hcheck. }
  pose proof (alias_with_multiple_specs_sublist aliases) as Hsub.
  split; [|split; [done|split; [|split; [|done]]]].
  - unfold get_alias_from_config_wrapped. rewrite Hmerge, Hfirst, Hcheck. done.
  - eapply sublist_NoDup; [|exact Hsub].
    eapply merge_aliases_NoDup; [|exact Hmerge]. apply NoDup_nil_2.
  - intros n. apply alias_with_multiple_specs_elem_of.
Qed.

(** C1, as the code has it. Two configured entries that pass the per-entry
    steps, of one name and one NUMA policy, both carrying the same device
    type, are merged into a single alias whose spec list is the two specs in
    the order of the configuration. Building the table returns that table
    exactly when strict mode is off and both specs have [vendor_id] and
    [product_id]. *)
Theorem same_name_entries_merge CONF j1 j2 name policy s1 s2 t :
  pci_alias CONF = [j1; j2] →
  read_alias j1 = inr (name, policy, s1) →
  read_alias j2 = inr (name, policy, s2) →
  s1 !! "dev_type" = Some t →
  s2 !! "dev_type" = Some t →
  merge_aliases [j1; j2] [] = inr [(name, (policy, [s1; s2]))]
  ∧ (get_alias_from_config_wrapped CONF = inr [(name, (policy, [s1; s2]))]
     ↔ pci_in_placement CONF = false ∧ passes false s1 ∧ passes false s2).
Proof.
  intros Hconf H1 H2 Ht1 Ht2.
  assert (merge_aliases [j1; j2] [] = inr [(name, (policy, [s1; s2]))])
    as Hmerge.
  { simpl. rewrite H1. simpl. rewrite H2. simpl.
    rewrite (merge_alias_same _ name policy s1 [] s2 t); simpl;
      rewrite ?String.eqb_refl; done. }
  split; [done|].
  set (table := [(name, (policy, [s1; s2]))]) in *.
  unfold get_alias_from_config_wrapped, _validate_aliases, _validate_multispec.
  rewrite Hconf, Hmerge. destruct (pci_in_placement CONF) eqn:Hstrict.
  - simpl. split; [done|]. by intros [? _].
  - simpl. rewrite validate_required_ids_eq, Hstrict. simpl.
    assert ((∃ n, offending false table n)
            ↔ ¬ (passes false s1 ∧ passes false s2)) as Hoff.
    { split.
      - intros (n & p & specs & s & Hin & Hs & Hno) [Hp1 Hp2].
        apply list_elem_of_singleton in Hin as [= -> -> ->].
        apply elem_of_cons in Hs as [->|Hs]; [done|].
        by apply list_elem_of_singleton in Hs as ->.
      - intros [Hno|Hno]%not_and_l; exists name.
        + exists policy, [s1; s2], s1. repeat split; [left|left|done].
        + exists policy, [s1; s2], s2. repeat split; [left|right; left|done]. }
    destruct (decide (passes false s1 ∧ passes false s2)) as [Hboth|Hno].
    + rewrite bool_decide_eq_false_2.
      * simpl. split; [by intros _|done].
      * intros Hne. apply Hne. apply names_failing_empty.
        rewrite Hoff. by intros Hcontra.
    + rewrite bool_decide_eq_true_2.
      * simpl. split; [done|]. by intros [_ ?].
      * intros Hempty%names_failing_empty. apply Hempty. by apply Hoff.
Qed.

(** C10. An entry whose name is in the table already, with the NUMA policy
    stored, is not merged when the first spec stored or its own spec has
    no [dev_type]: the comparison raises [KeyError] on ['dev_type'], which
    the last [except] clause turns into [PciInvalidAlias] with the key as
    its reason. *)
Theorem untyped_same_name_fails CONF pre j post aliases name policy s0 more s :
  pci_alias CONF = (pre ++ j :: post)%list →
  merge_aliases pre [] = inr aliases →
  ODict.get name aliases = Some (policy, s0 :: more) →
  read_alias j = inr (name, policy, s) →
  s0 !! "dev_type" = None ∨ s !! "dev_type" = None →
  merge_alias aliases name policy s = inl (KeyError "dev_type")
  ∧ get_alias_from_config_wrapped CONF
    = inl (PciInvalidAlias None (Some "'dev_type'")).
Proof.
  intros Hconf Hpre Hget Hj Hnone.
  pose proof (merge_alias_untyped _ _ _ _ _ _ Hget Hnone) as Hkey.
  split; [done|].
  unfold get_alias_from_config_wrapped.
  rewrite Hconf, merge_aliases_app, Hpre. simpl. rewrite Hj. simpl.
  by rewrite Hkey.
Qed.

(** C2, as the code has it. Two configured entries that pass the per-entry
    steps and share their name: if their NUMA policies differ, building the
    table raises [PciInvalidAlias] with the reason "NUMA policy mismatch for
    alias '<name>'"; if the policies agree and both carry a device type, and
    the types differ, with the reason "Device type mismatch for alias
    '<name>'". *)
Theorem conflicting_entries_fail CONF j1 j2 name p1 p2 s1 s2 :
  pci_alias CONF = [j1; j2] →
  read_alias j1 = inr (name, p1, s1) →
  read_alias j2 = inr (name, p2, s2) →
  (p1 ≠ p2 →
   get_alias_from_config_wrapped CONF
   = inl (PciInvalidAlias None
            (Some ("NUMA policy mismatch for alias '" ++ name ++ "'"))))
  ∧ (p1 = p2 → ∀ t1 t2,
       s1 !! "dev_type" = Some t1 → s2 !! "dev_type" = Some t2 → t1 ≠ t2 →
       get_alias_from_config_wrapped CONF
       = inl (PciInvalidAlias None
                (Some ("Device type mismatch for alias '" ++ name ++ "'")))).
Proof.
  intros Hconf H1 H2.
  assert (get_alias_from_config_wrapped CONF
          = match merge_alias [(name, (p1, [s1]))] name p2 s2 with
            | inl e => inl (except_clauses e)
            | inr aliases => _validate_aliases CONF aliases ≫= λ _, inr aliases
            end) as ->.
  { unfold get_alias_from_config_wrapped. rewrite Hconf. simpl.
    rewrite H1. simpl. rewrite H2. simpl.
    by destruct (merge_alias _ _ _ _). }
  assert (ODict.get name [(name, (p1, [s1]))] = Some (p1, [s1])) as Hget.
  { simpl. by rewrite String.eqb_refl. }
  split.
  - intros Hne. by rewrite (merge_alias_numa_mismatch _ _ _ _ _ _ Hget Hne).
  - intros <- t1 t2 Ht1 Ht2 Hne.
    by rewrite (merge_alias_type_mismatch _ _ _ _ _ _ _ _ Hget Ht1 Ht2 Hne).
Qed.

(** Building the table raises nothing but [PciInvalidAlias]. *)
Lemma table_errors_are_PciInvalidAlias CONF e :
  get_alias_from_config_wrapped CONF = inl e →
  ∃ message reason, e = PciInvalidAlias message reason.
Proof.
  unfold get_alias_from_config_wrapped.
  destruct (merge_aliases (pci_alias CONF) []) as [e0|aliases].
  - intros [= <-]. apply except_clauses_PciInvalidAlias.
  - unfold _validate_aliases, _validate_multispec.
    rewrite validate_required_ids_eq. simpl.
    destruct (pci_in_placement CONF); simpl.
    + destruct (alias_with_multiple_specs aliases); simpl.
      * destruct (bool_decide _); simpl; [|done]. intros [= <-]. by eexists _, _.
      * intros [= <-]. by eexists _, _.
    + destruct (bool_decide _); simpl; [|done]. intros [= <-]. by eexists _, _.
Qed.

End AliasConfigFacts.

(** ** The alias table on the sample setting *)

Section SampleAliasFacts.

#[local] Existing Instance Sample.externals.

Example read_alias_gpu_a :
  read_alias Sample.gpu_a = inr ("gpu", "legacy", Sample.spec_a).
Proof. vm_compute. reflexivity. Qed.

Example read_alias_gpu_b :
  read_alias Sample.gpu_b = inr ("gpu", "legacy", Sample.spec_b).
Proof. vm_compute. reflexivity. Qed.

Example read_alias_strips_and_normalizes :
  read_alias (Sample.entry [("name", " gpu "); ("live_migratable", "Yes");
                            ("numa_policy", "socket")])
  = inr ("gpu", "socket", list_to_map [("live_migratable", "true")]).
Proof. vm_compute. reflexivity. Qed.

Example read_alias_rejects :
  read_alias (Sample.entry [("name", "gpu"); ("vendor_id", "10de0")])
  = inl (ValidationError "instance is not valid under the alias schema")
  ∧ read_alias (Sample.entry [("name", "gpu"); ("dev_type", "type-PCI")])
    = inl (ValidationError "instance is not valid under the alias schema")
  ∧ read_alias (Sample.entry [("vendor_id", "10de")])
    = inl (ValidationError "instance is not valid under the alias schema")
  ∧ read_alias (inr (JArray []))
    = inl (ValidationError "instance is not valid under the alias schema")
  ∧ read_alias (inl (ValueError "Expecting value: line 1 column 1 (char 0)"))
    = inl (ValueError "Expecting value: line 1 column 1 (char 0)").
Proof. repeat split; vm_compute; reflexivity. Qed.

(** The theorem C1 at two entries of the alias [gpu]. *)
Lemma same_name_entries_merge_witness :
  merge_aliases [Sample.gpu_a; Sample.gpu_b] []
  = inr [("gpu", ("legacy", [Sample.spec_a; Sample.spec_b]))]
  ∧ (get_alias_from_config_wrapped
       (Sample.conf [Sample.gpu_a; Sample.gpu_b] false)
     = inr [("gpu", ("legacy", [Sample.spec_a; Sample.spec_b]))]
     ↔ pci_in_placement (Sample.conf [Sample.gpu_a; Sample.gpu_b] false) = false
       ∧ passes false Sample.spec_a ∧ passes false Sample.spec_b).
Proof.
  apply (same_name_entries_merge
           (Sample.conf [Sample.gpu_a; Sample.gpu_b] false)
           Sample.gpu_a Sample.gpu_b "gpu" "legacy"
           Sample.spec_a Sample.spec_b "type-PCI");
    vm_compute; reflexivity.
Defined.

(** C1 as stated fails on four inputs, each of two entries of one name,
    one NUMA policy and one device type: in strict mode the multi-spec
    check refuses the merged alias; outside strict mode two entries without
    [vendor_id] and [product_id] are refused by the required-identifier
    check; two entries that both leave [device_type] out are not merged; and
    an entry that the schema refuses ends the construction before any
    merge. *)
Lemma same_name_entries_merge_counterexample :
  (read_alias Sample.gpu_a = inr ("gpu", "legacy", Sample.spec_a)
   ∧ read_alias Sample.gpu_b = inr ("gpu", "legacy", Sample.spec_b)
   ∧ Sample.spec_a !! "dev_type" = Sample.spec_b !! "dev_type"
   ∧ get_alias_from_config_wrapped
       (Sample.conf [Sample.gpu_a; Sample.gpu_b] true)
     = inl (PciInvalidAlias (Some (multispec_message "gpu")) None))
  ∧ (read_alias Sample.rc_a = inr ("gpu", "legacy", Sample.spec_rc_a)
     ∧ read_alias Sample.rc_b = inr ("gpu", "legacy", Sample.spec_rc_b)
     ∧ Sample.spec_rc_a !! "dev_type" = Sample.spec_rc_b !! "dev_type"
     ∧ get_alias_from_config_wrapped
         (Sample.conf [Sample.rc_a; Sample.rc_b] false)
       = inl (PciInvalidAlias (Some (no_ids_message "gpu")) None))
  ∧ (read_alias Sample.gpu_untyped = inr ("gpu", "legacy", Sample.spec_untyped)
     ∧ Sample.spec_untyped !! "dev_type" = Sample.spec_untyped !! "dev_type"
     ∧ get_alias_from_config_wrapped
         (Sample.conf [Sample.gpu_untyped; Sample.gpu_untyped] false)
       = inl (PciInvalidAlias None (Some "'dev_type'")))
  ∧ (read_alias Sample.gpu_extra
     = inl (ValidationError "instance is not valid under the alias schema")
     ∧ get_alias_from_config_wrapped
         (Sample.conf [Sample.gpu_a; Sample.gpu_extra] false)
       = inl (PciInvalidAlias
                None (Some "instance is not valid under the alias schema"))).
Proof. repeat split; vm_compute; reflexivity. Qed.

(** The theorem C10 at a typed entry followed by an untyped one. *)
Lemma untyped_same_name_fails_witness :
  merge_alias [("gpu", ("legacy", [Sample.spec_a]))] "gpu" "legacy"
              Sample.spec_untyped
  = inl (KeyError "dev_type")
  ∧ get_alias_from_config_wrapped
      (Sample.conf [Sample.gpu_a; Sample.gpu_untyped; Sample.nic] false)
    = inl (PciInvalidAlias None (Some "'dev_type'")).
Proof.
  apply (untyped_same_name_fails
           (Sample.conf [Sample.gpu_a; Sample.gpu_untyped; Sample.nic] false)
           [Sample.gpu_a] Sample.gpu_untyped [Sample.nic]
           [("gpu", ("legacy", [Sample.spec_a]))] "gpu" "legacy"
           Sample.spec_a [] Sample.spec_untyped);
    try (vm_compute; reflexivity).
  right. vm_compute. reflexivity.
Defined.

(** The theorem C2 at entries of the alias [gpu] under two NUMA policies. *)
Lemma conflicting_entries_fail_witness :
  get_alias_from_config_wrapped
    (Sample.conf [Sample.gpu_a; Sample.gpu_required] false)
  = inl (PciInvalidAlias None (Some "NUMA policy mismatch for alias 'gpu'")).
Proof.
  apply (conflicting_entries_fail
           (Sample.conf [Sample.gpu_a; Sample.gpu_required] false)
           Sample.gpu_a Sample.gpu_required "gpu" "legacy" "required"
           Sample.spec_a Sample.spec_b);
    [vm_compute; reflexivity .. | discriminate].
Defined.

Example device_type_mismatch_ex :
  get_alias_from_config_wrapped
    (Sample.conf [Sample.gpu_a; Sample.gpu_pf] false)
  = inl (PciInvalidAlias None (Some "Device type mismatch for alias 'gpu'")).
Proof. vm_compute. reflexivity. Qed.

(** C2 as stated fails on two inputs. When one of the two entries leaves
    [device_type] out, the entries share name and NUMA policy and differ in
    [dev_type], and the table is refused with a [PciInvalidAlias] whose
    reason is the key ['dev_type'], in which the alias name does not occur.
    When the second entry, under another NUMA policy than the first, is
    refused by the schema, the reason is the message of the schema library
    and not the mismatch. *)
Lemma conflicting_entries_fail_counterexample :
  (read_alias Sample.gpu_a = inr ("gpu", "legacy", Sample.spec_a)
   ∧ read_alias Sample.gpu_untyped = inr ("gpu", "legacy", Sample.spec_untyped)
   ∧ Sample.spec_a !! "dev_type" ≠ Sample.spec_untyped !! "dev_type"
   ∧ get_alias_from_config_wrapped
       (Sample.conf [Sample.gpu_a; Sample.gpu_untyped] false)
     = inl (PciInvalidAlias None (Some "'dev_type'"))
   ∧ String.index 0 "gpu" "'dev_type'" = None)
  ∧ (read_alias Sample.gpu_extra_required
     = inl (ValidationError "instance is not valid under the alias schema")
     ∧ get_alias_from_config_wrapped
         (Sample.conf [Sample.gpu_a; Sample.gpu_extra_required] false)
       = inl (PciInvalidAlias
                None (Some "instance is not valid under the alias schema"))).
Proof.
  repeat split; try (vm_compute; reflexivity). vm_compute. discriminate.
Qed.

End SampleAliasFacts.

Section SampleValidatorFacts.

#[local] Existing Instance Sample.externals.

Example bare_entries_merge :
  merge_aliases [Sample.bare_b; Sample.bare_a; Sample.bare_a; Sample.bare_b] []
  = inr Sample.bare_table.
Proof. vm_compute. reflexivity. Qed.

(** The theorem C3 at a table with two aliases of two specs each, none of
    which would pass the required-identifier check either. *)
Lemma strict_multispec_fails_witness :
  ∃ names,
    get_alias_from_config_wrapped
      (Sample.conf [Sample.bare_b; Sample.bare_a; Sample.bare_a; Sample.bare_b]
                   true)
    = inl (PciInvalidAlias
             (Some ("The PCI alias(es) " ++ PyStr.join "," names
                    ++ " have multiple specs but [filter_scheduler]"
                    ++ "pci_in_placement is True. The PCI in Placement feature"
                    ++ " only supports one spec per alias. You can assign the"
                    ++ " same resource_class to multiple [pci]device_spec"
                    ++ " matchers to allow using different devices for the"
                    ++ " same alias."))
             None)
    ∧ names `sublist_of` ODict.keys Sample.bare_table
    ∧ NoDup names
    ∧ (∀ name, name ∈ names ↔ multispec Sample.bare_table name)
    ∧ _validate_aliases
        (Sample.conf [Sample.bare_b; Sample.bare_a; Sample.bare_a; Sample.bare_b]
                     true) Sample.bare_table
      = _validate_multispec
          (Sample.conf [Sample.bare_b; Sample.bare_a; Sample.bare_a; Sample.bare_b]
                       true) Sample.bare_table.
Proof.
  apply (strict_multispec_fails
           (Sample.conf [Sample.bare_b; Sample.bare_a; Sample.bare_a; Sample.bare_b]
                        true) Sample.bare_table).
  - reflexivity.
  - vm_compute. reflexivity.
  - exists "b", "legacy", [Sample.spec_bare; Sample.spec_bare].
    split; [left | simpl; lia].
Defined.

(** The names come in the order of the table, here [b] before [a], while
    the required-identifier check on the same table sorts them. *)
Example multispec_order_ex :
  get_alias_from_config_wrapped
    (Sample.conf [Sample.bare_b; Sample.bare_a; Sample.bare_a; Sample.bare_b]
                 true)
  = inl (PciInvalidAlias (Some (multispec_message "b,a")) None)
  ∧ _validate_required_ids (Sample.conf [] true) Sample.bare_table
    = inl (PciInvalidAlias (Some (no_ids_or_rc_message "a,b")) None)
  ∧ _validate_required_ids (Sample.conf [] false) Sample.bare_table
    = inl (PciInvalidAlias (Some (no_ids_message "a,b")) None).
Proof. repeat split; vm_compute; reflexivity. Qed.

(** Outside strict mode a [resource_class] does not stand for the
    identifiers; in strict mode it does. *)
Example resource_class_ex :
  get_alias_from_config_wrapped (Sample.conf [Sample.rc_a] false)
  = inl (PciInvalidAlias (Some (no_ids_message "gpu")) None)
  ∧ get_alias_from_config_wrapped (Sample.conf [Sample.rc_a] true)
    = inr [("gpu", ("legacy", [Sample.spec_rc_a]))].
Proof. split; vm_compute; reflexivity. Qed.

(** The theorem C4 at that table, outside strict mode. *)
Lemma required_ids_check_witness :
  ∃ names,
    _validate_required_ids (Sample.conf [] false) Sample.bare_table
    = inl (PciInvalidAlias
             (Some ("The PCI alias(es) " ++ PyStr.join "," names
                    ++ " does not have vendor_id and product_id fields set."))
             None)
    ∧ Sorted str_le names
    ∧ NoDup names
    ∧ ∀ name, name ∈ names ↔ offending false Sample.bare_table name.
Proof.
  apply (proj1 (required_ids_check (Sample.conf [] false) Sample.bare_table)).
  exists "a", "legacy", [Sample.spec_bare; Sample.spec_bare], Sample.spec_bare.
  split; [right; left|]. split; [left|].
  intros [[[v Hv] _]|[Hs _]]; [vm_compute in Hv|]; discriminate.
Defined.

End SampleValidatorFacts.

(** ** Translating an alias string *)

Section TranslateFacts.

Context `{Externals}.

Implicit Types (st : State) (aliases : Alias) (override : option string).

(** The cache of [get_alias_from_config]: a table once returned is returned
    again without a look at the configuration; a call that raises leaves the
    cache empty, so that the next call computes again. *)
Lemma get_alias_from_config_cached CONF st aliases :
  alias_cache st = Some aliases →
  get_alias_from_config CONF st = (inr aliases, st).
Proof. intros Hhit. unfold get_alias_from_config. by rewrite Hhit. Qed.

Lemma get_alias_from_config_first CONF st aliases :
  alias_cache st = None →
  get_alias_from_config_wrapped CONF = inr aliases →
  ∃ st', get_alias_from_config CONF st = (inr aliases, st')
         ∧ alias_cache st' = Some aliases
         ∧ ∀ CONF', get_alias_from_config CONF' st' = (inr aliases, st').
Proof.
  intros Hmiss Hok. unfold get_alias_from_config at 1. rewrite Hmiss, Hok.
  eexists. split; [done|]. split; [done|].
  intros CONF'. by apply get_alias_from_config_cached.
Qed.

Lemma get_alias_from_config_raises CONF st e :
  alias_cache st = None →
  get_alias_from_config_wrapped CONF = inl e →
  get_alias_from_config CONF st = (inl e, st).
Proof.
  intros Hmiss Herr. unfold get_alias_from_config. by rewrite Hmiss, Herr.
Qed.

(** A flavor without the alias extra spec has no request, whatever the
    configuration. *)
Lemma flavor_without_alias CONF flavor override st :
  (∀ extra, Flavor.extra_specs flavor = Some extra →
            extra !! "pci_passthrough:alias" = None) →
  get_pci_requests_from_flavor CONF flavor override st
  = (inr {| InstancePCIRequests.requests := [] |}, st).
Proof.
  intros Hnone. unfold get_pci_requests_from_flavor.
  destruct (Flavor.extra_specs flavor) as [extra|]; [|done].
  by rewrite (Hnone extra eq_refl).
Qed.

(** The constructor of a request. *)
Lemma new_ok count spec alias_name numa_policy request_id :
  numa_policy ∈ PCINUMAAffinityPolicy_ALL →
  InstancePCIRequest.new count spec alias_name numa_policy request_id
  = inr {| InstancePCIRequest.count := count;
           InstancePCIRequest.spec := spec;
           InstancePCIRequest.alias_name := Some alias_name;
           InstancePCIRequest.numa_policy := Some numa_policy;
           InstancePCIRequest.request_id := Some request_id |}.
Proof. intros Hin. unfold InstancePCIRequest.new. by rewrite bool_decide_true. Qed.

Lemma new_refused count spec alias_name numa_policy request_id :
  numa_policy ∉ PCINUMAAffinityPolicy_ALL →
  InstancePCIRequest.new count spec alias_name numa_policy request_id
  = inl (ValueError ("Field value " ++ numa_policy ++ " is invalid")).
Proof. intros Hin. unfold InstancePCIRequest.new. by rewrite bool_decide_false. Qed.

Lemma new_inv count spec alias_name numa_policy request_id req :
  InstancePCIRequest.new count spec alias_name numa_policy request_id = inr req →
  numa_policy ∈ PCINUMAAffinityPolicy_ALL
  ∧ req = {| InstancePCIRequest.count := count;
             InstancePCIRequest.spec := spec;
             InstancePCIRequest.alias_name := Some alias_name;
             InstancePCIRequest.numa_policy := Some numa_policy;
             InstancePCIRequest.request_id := Some request_id |}.
Proof.
  unfold InstancePCIRequest.new. case_bool_decide; [|discriminate].
  by intros [= <-].
Qed.

(** The policy of a request, when the override is none or a policy of the
    enumeration and the alias has one of them. *)
Lemma or_valid override policy :
  (∀ p, override = Some p → p ∈ PCINUMAAffinityPolicy_ALL) →
  policy ∈ PCINUMAAffinityPolicy_ALL →
  or_ override policy ∈ PCINUMAAffinityPolicy_ALL.
Proof.
  intros Hover Hpolicy. destruct override as [p|]; [|done]. simpl.
  destruct (String.eqb p ""); [done|]. by apply Hover.
Qed.

(** The loop adds one request for each pair, in the order of the pairs, and
    draws one uuid for each, in that order. *)
Lemma translate_pairs_inv aliases override pairs acc st reqs st' :
  translate_pairs aliases override pairs acc st = (inr reqs, st') →
  ∃ new,
    reqs = (acc ++ new)%list
    ∧ Forall2 (emitted aliases override) pairs new
    ∧ map InstancePCIRequest.request_id new
      = map (fun n => Some (generate_uuid n)) (seq (uuid_calls st) (length pairs))
    ∧ alias_cache st' = alias_cache st
    ∧ uuid_calls st' = (uuid_calls st + length pairs)%nat
    ∧ warnings st' = warnings st.
Proof.
  revert acc st. induction pairs as [|item pairs IH]; intros acc st; simpl.
  - intros [= <- <-]. exists []. rewrite app_nil_r, Nat.add_0_r.
    repeat split; constructor.
  - destruct item as [|name [|count [|? ?]]]; try discriminate.
    destruct (ODict.get (PyStr.strip name) aliases) as [[policy specs]|] eqn:Hget;
      [|discriminate].
    destruct (PyStr.int int_max_str_digits count) as [msg|z] eqn:Hint;
      [discriminate|].
    unfold mbind, M_bind, uuidutils_generate_uuid. simpl.
    destruct (InstancePCIRequest.new _ _ _ _ _) as [e|request] eqn:Hnew';
      [discriminate|].
    apply new_inv in Hnew' as [_ ->].
    intros Hrest. apply IH in Hrest as (new & -> & Hnew & Hids & Hc & Hu & Hw).
    simpl in *. eexists (_ :: new). rewrite <- app_assoc. simpl.
    split; [done|]. split; [|split; [|split; [done|split; [lia|done]]]].
    + constructor; [|done]. exists name, count, policy, specs. simpl.
      by rewrite Hint.
    + simpl. by rewrite Hids.
Qed.

Lemma translate_inv CONF alias_spec override st reqs st' :
  _translate_alias_to_requests CONF alias_spec override st = (inr reqs, st') →
  ∃ aliases st1,
    get_alias_from_config CONF st = (inr aliases, st1)
    ∧ uuid_calls st1 = uuid_calls st
    ∧ translate_pairs aliases override
        (map (PyStr.split ":") (PyStr.split "," alias_spec)) [] st1
      = (inr reqs, st').
Proof.
  unfold _translate_alias_to_requests, mbind, M_bind.
  destruct (get_alias_from_config CONF st) as [[e|aliases] st1] eqn:Hcfg;
    [discriminate|].
  intros Hloop. exists aliases, st1. split; [done|]. split; [|done].
  unfold get_alias_from_config in Hcfg.
  destruct (alias_cache st); [by injection Hcfg as _ <-|].
  destruct (get_alias_from_config_wrapped CONF); [discriminate|].
  by injection Hcfg as _ <-.
Qed.

(** [int] on a numeral of one digit, whatever the digit limit. *)
Lemma int_one_digit limit :
  PyStr.int limit "0" = inr 0
  ∧ PyStr.int limit "1" = inr 1
  ∧ PyStr.int limit "2" = inr 2
  ∧ PyStr.int limit "3" = inr 3.
Proof. destruct limit as [|[|n]]; repeat split; reflexivity. Qed.

Lemma emitted_pieces aliases override pieces reqs :
  Forall2 (emitted aliases override) (map (PyStr.split ":") pieces) reqs →
  Forall2 (fun piece req =>
             ∃ name count,
               PyStr.split ":" piece = [name; count]
               ∧ PyStr.int int_max_str_digits count
                 = inr (InstancePCIRequest.count req)
               ∧ InstancePCIRequest.alias_name req = Some (PyStr.strip name))
          pieces reqs.
Proof.
  rewrite Forall2_fmap_l. intros Hall. eapply Forall2_impl; [exact Hall|].
  intros piece req (name & count & policy & specs & ? & _ & ? & _ & ? & _).
  by exists name, count.
Qed.

(** The uuids of consecutive calls are distinct when the generator never
    repeats itself. *)
Lemma fresh_ids_NoDup (first n : nat) :
  (∀ i j, generate_uuid i = generate_uuid j → i = j) →
  NoDup (map (fun k => Some (generate_uuid k)) (seq first n)).
Proof.
  intros Hfresh.
  assert (Inj (=) (=) (fun k => Some (generate_uuid k))) as Hinj.
  { intros i j [= Heq]. by apply Hfresh. }
  apply (NoDup_fmap_2 _), NoDup_seq.
Qed.

(** C5. The NUMA policies are the strings of the enumeration, none of them
    empty; the override of a caller is none or one of them, and the alias [gpu]
    of the table has one of them. Then the string "gpu:2" gives exactly one
    request: of count 2, of alias name "gpu", with the spec list of the
    alias, and with the override as NUMA policy when the caller gave one, the
    policy of the alias when the caller gave none. *)
Theorem translate_gpu_2 CONF override st aliases st1 policy specs :
  "" ∉ PCINUMAAffinityPolicy_ALL →
  (∀ p, override = Some p → p ∈ PCINUMAAffinityPolicy_ALL) →
  policy ∈ PCINUMAAffinityPolicy_ALL →
  get_alias_from_config CONF st = (inr aliases, st1) →
  ODict.get "gpu" aliases = Some (policy, specs) →
  ∃ req st2,
    _translate_alias_to_requests CONF "gpu:2" override st = (inr [req], st2)
    ∧ InstancePCIRequest.count req = 2
    ∧ InstancePCIRequest.alias_name req = Some "gpu"
    ∧ InstancePCIRequest.spec req = specs
    ∧ (override = None → InstancePCIRequest.numa_policy req = Some policy)
    ∧ (∀ p, override = Some p → InstancePCIRequest.numa_policy req = Some p).
Proof.
  intros Hempty Hover Hpolicy Hcfg Hget.
  destruct (int_one_digit int_max_str_digits) as (_ & _ & Hint & _).
  unfold _translate_alias_to_requests, mbind, M_bind. rewrite Hcfg.
  change (map (PyStr.split ":") (PyStr.split "," "gpu:2")) with [["gpu"; "2"]].
  unfold translate_pairs.
  change (PyStr.strip "gpu") with "gpu". rewrite Hget, Hint.
  unfold mbind, M_bind, uuidutils_generate_uuid, mret, M_ret. simpl.
  rewrite new_ok by by apply or_valid. simpl.
  eexists _, _. split; [reflexivity|]. simpl.
  repeat split; try done.
  - by intros ->.
  - intros p ->. simpl. destruct (String.eqb_spec p "") as [-> | _]; [|done].
    destruct Hempty. by apply Hover.
Qed.

(** C7, as the code has it. When the translation of an alias string
    returns, its requests answer the comma-separated pairs one for one, and
    the count of each request is the integer that [int] reads from the count
    text of its pair, whatever its sign. *)
Theorem translate_counts CONF alias_spec override st reqs st2 :
  _translate_alias_to_requests CONF alias_spec override st = (inr reqs, st2) →
  Forall2 (fun piece req =>
             ∃ name count,
               PyStr.split ":" piece = [name; count]
               ∧ PyStr.int int_max_str_digits count
                 = inr (InstancePCIRequest.count req))
          (PyStr.split "," alias_spec) reqs.
Proof.
  intros (aliases & st1 & _ & _ & Hloop)%translate_inv.
  apply translate_pairs_inv in Hloop as (new & -> & Hnew & _). simpl.
  apply emitted_pieces in Hnew. eapply Forall2_impl; [exact Hnew|].
  intros piece req (name & count & ? & ? & _). by exists name, count.
Qed.

(** C6. With a uuid generator that never repeats itself: against a table
    with the aliases [a] and [b], each with a NUMA policy of the enumeration,
    and for a caller whose override is none or a policy of the enumeration,
    "a:1,b:3" gives two requests, the one of [a] with count 1 before the one
    of [b] with count 3, of different [request_id]s; the requests of any
    translation that returns follow the pairs of the string in their order
    and have pairwise different [request_id]s, and so has the request set
    made for a flavor. *)
Theorem translate_order_and_ids :
  (∀ i j, generate_uuid i = generate_uuid j → i = j) →
  (∀ CONF override st aliases st1 pa sa pb sb,
     (∀ p, override = Some p → p ∈ PCINUMAAffinityPolicy_ALL) →
     pa ∈ PCINUMAAffinityPolicy_ALL →
     pb ∈ PCINUMAAffinityPolicy_ALL →
     get_alias_from_config CONF st = (inr aliases, st1) →
     ODict.get "a" aliases = Some (pa, sa) →
     ODict.get "b" aliases = Some (pb, sb) →
     ∃ ra rb st2,
       _translate_alias_to_requests CONF "a:1,b:3" override st
       = (inr [ra; rb], st2)
       ∧ InstancePCIRequest.alias_name ra = Some "a"
       ∧ InstancePCIRequest.count ra = 1
       ∧ InstancePCIRequest.spec ra = sa
       ∧ InstancePCIRequest.alias_name rb = Some "b"
       ∧ InstancePCIRequest.count rb = 3
       ∧ InstancePCIRequest.spec rb = sb
       ∧ InstancePCIRequest.request_id ra ≠ InstancePCIRequest.request_id rb)
  ∧ (∀ CONF alias_spec override st reqs st2,
       _translate_alias_to_requests CONF alias_spec override st
       = (inr reqs, st2) →
       NoDup (map InstancePCIRequest.request_id reqs)
       ∧ Forall2 (fun piece req =>
                    ∃ name count,
                      PyStr.split ":" piece = [name; count]
                      ∧ InstancePCIRequest.alias_name req
                        = Some (PyStr.strip name))
                 (PyStr.split "," alias_spec) reqs)
  ∧ (∀ CONF flavor override st set st2,
       get_pci_requests_from_flavor CONF flavor override st = (inr set, st2) →
       NoDup (map InstancePCIRequest.request_id
                  (InstancePCIRequests.requests set))).
Proof.
  intros Hfresh.
  assert (∀ CONF alias_spec override st reqs st2,
            _translate_alias_to_requests CONF alias_spec override st
            = (inr reqs, st2) →
            NoDup (map InstancePCIRequest.request_id reqs)) as Hdistinct.
  { intros CONF alias_spec override st reqs st2
           (aliases & st1 & _ & _ & Hloop)%translate_inv.
    apply translate_pairs_inv in Hloop as (new & -> & _ & Hids & _). simpl.
    rewrite Hids. by apply fresh_ids_NoDup. }
  split; [|split].
  - intros CONF override st aliases st1 pa sa pb sb Hover Hpa Hpb Hcfg Ha Hb.
    destruct (int_one_digit int_max_str_digits) as (_ & H1 & _ & H3).
    unfold _translate_alias_to_requests, mbind, M_bind. rewrite Hcfg.
    change (map (PyStr.split ":") (PyStr.split "," "a:1,b:3"))
      with [["a"; "1"]; ["b"; "3"]].
    unfold translate_pairs.
    change (PyStr.strip "a") with "a". change (PyStr.strip "b") with "b".
    rewrite Ha, H1. unfold mbind, M_bind, uuidutils_generate_uuid. simpl.
    rewrite new_ok by by apply or_valid. simpl.
    rewrite Hb, H3. simpl.
    rewrite new_ok by by apply or_valid. simpl.
    eexists _, _, _. split; [reflexivity|]. simpl.
    repeat split; try done.
    intros [= Heq]. apply Hfresh in Heq. lia.
  - intros CONF alias_spec override st reqs st2 Hrun. split; [by eauto|].
    apply translate_inv in Hrun as (aliases & st1 & _ & _ & Hloop).
    apply translate_pairs_inv in Hloop as (new & -> & Hnew & _). simpl.
    apply emitted_pieces in Hnew. eapply Forall2_impl; [exact Hnew|].
    intros piece req (name & count & ? & _ & ?). by exists name, count.
  - intros CONF flavor override st set st2.
    unfold get_pci_requests_from_flavor, mbind, M_bind.
    destruct (Flavor.extra_specs flavor) as [extra|].
    + destruct (extra !! "pci_passthrough:alias") as [alias_spec|].
      * destruct (_translate_alias_to_requests CONF alias_spec override st)
          as [[e|reqs] st'] eqn:Hrun; [discriminate|].
        intros [= <- <-]. simpl. by eauto.
      * intros [= <- <-]. simpl. constructor.
    + intros [= <- <-]. simpl. constructor.
Qed.

End TranslateFacts.

(** ** The request behind a VIF *)

Section ResolverFacts.

Context `{Externals}.

Lemma find_first {A : Type} (f : A → bool) before x after :
  (∀ y, y ∈ before → f y = false) →
  f x = true →
  List.find f (before ++ x :: after) = Some x.
Proof.
  intros Hbefore Hx. induction before as [|y before IH]; simpl.
  - by rewrite Hx.
  - rewrite (Hbefore y) by left. apply IH. intros z Hz. apply Hbefore. by right.
Qed.

Lemma find_none {A : Type} (f : A → bool) l :
  (∀ y, y ∈ l → f y = false) → List.find f l = None.
Proof.
  intros Hl. induction l as [|y l IH]; simpl; [done|].
  rewrite (Hl y) by left. apply IH. intros z Hz. apply Hl. by right.
Qed.

(** The address the resolver reads from the profile of the VIF. *)
Lemma profile_address (profile : gmap string string) addr :
  profile !! "pci_slot" = Some addr →
  (if bool_decide (profile ≠ ∅) then profile !! "pci_slot" else None) = Some addr.
Proof.
  intros Hslot. rewrite bool_decide_eq_true_2; [done|].
  intros ->. by rewrite lookup_empty in Hslot.
Qed.

Lemma device_test_false cn_id addr (dev : PciDevice.t) :
  ¬ (PciDevice.compute_node_id dev = cn_id ∧ PciDevice.address dev = addr) →
  (PciDevice.compute_node_id dev =? cn_id)
  && String.eqb (PciDevice.address dev) addr = false.
Proof.
  intros Hno. apply andb_false_iff.
  destruct (Z.eqb_spec (PciDevice.compute_node_id dev) cn_id); [|by left].
  destruct (String.eqb_spec (PciDevice.address dev) addr); [|by right].
  by destruct Hno.
Qed.

(** C8. The resolver returns [None], and raises nothing, in each of these
    cases: the profile of the VIF has no [pci_slot]; the compute-node lookup
    raises [NotFound]; no PCI device of the instance has both the identifier
    of the compute node found and the address of the VIF. *)
Theorem no_request_cases context instance vif st :
  ((∀ profile, VIF.profile vif = Some profile → profile !! "pci_slot" = None) →
   get_instance_pci_request_from_vif context instance vif st = (inr None, st))
  ∧ (∀ message,
       get_by_host_and_nodename context (Instance.host instance)
                                (Instance.node instance)
       = inl (NotFound message) →
       fst (get_instance_pci_request_from_vif context instance vif st)
       = inr None)
  ∧ (∀ cn_id,
       get_by_host_and_nodename context (Instance.host instance)
                                (Instance.node instance)
       = inr cn_id →
       (∀ dev profile addr,
          dev ∈ Instance.pci_devices instance →
          VIF.profile vif = Some profile →
          profile !! "pci_slot" = Some addr →
          ¬ (PciDevice.compute_node_id dev = cn_id
             ∧ PciDevice.address dev = addr)) →
       get_instance_pci_request_from_vif context instance vif st
       = (inr None, st)).
Proof.
  unfold get_instance_pci_request_from_vif. split; [|split].
  - intros Hnone. destruct (VIF.profile vif) as [profile|]; [|done].
    rewrite (Hnone profile eq_refl). by destruct (bool_decide _).
  - intros message Hlookup.
    destruct (VIF.profile vif) as [profile|]; [|done].
    destruct (if bool_decide (profile ≠ ∅) then profile !! "pci_slot" else None)
      as [addr|]; [|done].
    destruct (String.eqb addr ""); [done|]. by rewrite Hlookup.
  - intros cn_id Hlookup Hdevs.
    destruct (VIF.profile vif) as [profile|]; [|done].
    destruct (bool_decide (profile ≠ ∅)); [|done].
    destruct (profile !! "pci_slot") as [addr|] eqn:Hslot; [|done].
    destruct (String.eqb addr ""); [done|]. rewrite Hlookup.
    rewrite find_none; [done|].
    intros dev Hdev. apply device_test_false. by eapply Hdevs.
Qed.

(** C9. When the VIF has a device address, the compute node is found, and
    [dev] is the first PCI device of the instance with the identifier of that
    node and that address: if no request of the instance has the
    [request_id] of [dev], the resolver raises [PciRequestFromVIFNotFound]
    with the address and the node identifier; otherwise it returns the
    first request with that [request_id]. *)
Theorem request_of_bound_device context instance vif st
    profile addr cn_id before dev after :
  VIF.profile vif = Some profile →
  profile !! "pci_slot" = Some addr →
  addr ≠ "" →
  get_by_host_and_nodename context (Instance.host instance)
                           (Instance.node instance) = inr cn_id →
  Instance.pci_devices instance = (before ++ dev :: after)%list →
  (∀ d, d ∈ before →
        ¬ (PciDevice.compute_node_id d = cn_id ∧ PciDevice.address d = addr)) →
  PciDevice.compute_node_id dev = cn_id →
  PciDevice.address dev = addr →
  ((∀ req, req ∈ InstancePCIRequests.requests (Instance.pci_requests instance) →
           InstancePCIRequest.request_id req ≠ PciDevice.request_id dev) →
   get_instance_pci_request_from_vif context instance vif st
   = (inl (PciRequestFromVIFNotFound addr cn_id), st))
  ∧ (∀ earlier req later,
       InstancePCIRequests.requests (Instance.pci_requests instance)
       = (earlier ++ req :: later)%list →
       (∀ r, r ∈ earlier →
             InstancePCIRequest.request_id r ≠ PciDevice.request_id dev) →
       InstancePCIRequest.request_id req = PciDevice.request_id dev →
       get_instance_pci_request_from_vif context instance vif st
       = (inr (Some req), st)).
Proof.
  intros Hprofile Hslot Haddr Hlookup Hdevs Hbefore Hcn Hdev.
  unfold get_instance_pci_request_from_vif.
  rewrite Hprofile, (profile_address _ _ Hslot).
  destruct (String.eqb_spec addr ""); [done|]. rewrite Hlookup, Hdevs.
  rewrite (find_first _ before dev after).
  - split.
    + intros Hnone. rewrite find_none; [done|].
      intros req Hreq. apply bool_decide_eq_false_2. by apply Hnone.
    + intros earlier req later -> Hearlier Hreq.
      rewrite (find_first _ earlier req later); [done| |].
      * intros r Hr. apply bool_decide_eq_false_2. by apply Hearlier.
      * by apply bool_decide_eq_true_2.
  - intros d Hd. apply device_test_false. by apply Hbefore.
  - rewrite Hcn, Hdev, Z.eqb_refl, String.eqb_refl. done.
Qed.

(** The lookup that raises [NotFound], or an exception of a subclass of it,
    leaves a warning behind, when the VIF has an address. *)
Lemma not_found_is_logged context instance vif st profile addr e :
  VIF.profile vif = Some profile →
  profile !! "pci_slot" = Some addr →
  addr ≠ "" →
  get_by_host_and_nodename context (Instance.host instance)
                           (Instance.node instance) = inl e →
  isinstance_NotFound e = true →
  get_instance_pci_request_from_vif context instance vif st
  = (inr None,
     {| alias_cache := alias_cache st;
        uuid_calls := uuid_calls st;
        warnings := (warnings st
                     ++ [("expected to find compute node with host "
                          ++ Instance.host instance ++ " and node "
                          ++ Instance.node instance
                          ++ " when getting instance PCI request from VIF"
                         )%string])%list |}).
Proof.
  intros Hprofile Hslot Haddr Hlookup Hcaught.
  unfold get_instance_pci_request_from_vif.
  rewrite Hprofile, (profile_address _ _ Hslot).
  destruct (String.eqb_spec addr ""); [done|]. by rewrite Hlookup, Hcaught.
Qed.

End ResolverFacts.

(** ** Translation and resolution on the sample setting *)

Section SampleRequestFacts.

#[local] Existing Instance Sample.externals.

Lemma sample_uuid_fresh i j : generate_uuid i = generate_uuid j → i = j.
Proof.
  simpl. intros [= Heq]. revert j Heq.
  induction i as [|i IH]; intros [|j]; simpl; try done.
  intros [= Heq]. f_equal. by apply IH.
Qed.

(** The theorem C5 at the table of [gpu_a] and the override "preferred". *)
Lemma translate_gpu_2_witness :
  ∃ req st2,
    _translate_alias_to_requests (Sample.conf [Sample.gpu_a] false) "gpu:2"
                                 (Some "preferred") Sample.start
    = (inr [req], st2)
    ∧ InstancePCIRequest.count req = 2
    ∧ InstancePCIRequest.alias_name req = Some "gpu"
    ∧ InstancePCIRequest.spec req = [Sample.spec_a]
    ∧ (Some "preferred" = None →
       InstancePCIRequest.numa_policy req = Some "legacy")
    ∧ (∀ p, Some "preferred" = Some p →
            InstancePCIRequest.numa_policy req = Some p).
Proof.
  apply (translate_gpu_2 (Sample.conf [Sample.gpu_a] false) (Some "preferred")
           Sample.start Sample.gpu_table Sample.gpu_cached "legacy"
           [Sample.spec_a]).
  - compute_done.
  - intros p [= <-]. compute_done.
  - compute_done.
  - vm_compute. reflexivity.
  - vm_compute. reflexivity.
Defined.

(** Without an override the request has the policy of its alias. *)
Example translate_gpu_2_none_ex :
  fst (_translate_alias_to_requests (Sample.conf [Sample.gpu_required] false)
         "gpu:2" None Sample.start)
  = inr [ {| InstancePCIRequest.count := 2;
             InstancePCIRequest.spec := [Sample.spec_b];
             InstancePCIRequest.alias_name := Some "gpu";
             InstancePCIRequest.numa_policy := Some "required";
             InstancePCIRequest.request_id := Some "uuid-" |} ].
Proof. vm_compute. reflexivity. Qed.

Example translate_gpu_2_ex :
  fst (_translate_alias_to_requests (Sample.conf [Sample.gpu_a] false) "gpu:2"
         (Some "preferred") Sample.start)
  = inr [ {| InstancePCIRequest.count := 2;
             InstancePCIRequest.spec := [Sample.spec_a];
             InstancePCIRequest.alias_name := Some "gpu";
             InstancePCIRequest.numa_policy := Some "preferred";
             InstancePCIRequest.request_id := Some "uuid-" |} ].
Proof. vm_compute. reflexivity. Qed.

(** The empty string is no NUMA policy, and Python's [or] takes it for no
    override: the request carries the policy of the alias. *)
Example translate_empty_override_ex :
  ODict.get "gpu" Sample.gpu_table = Some ("legacy", [Sample.spec_a])
  ∧ _translate_alias_to_requests (Sample.conf [Sample.gpu_a] false) "gpu:2"
      (Some "") Sample.start
    = (inr [ {| InstancePCIRequest.count := 2;
                InstancePCIRequest.spec := [Sample.spec_a];
                InstancePCIRequest.alias_name := Some "gpu";
                InstancePCIRequest.numa_policy := Some "legacy";
                InstancePCIRequest.request_id := Some "uuid-" |} ],
       {| alias_cache := Some Sample.gpu_table;
          uuid_calls := 1;
          warnings := [] |}).
Proof. split; vm_compute; reflexivity. Qed.

(** The theorem C7 at a request for no device. *)
Lemma translate_counts_witness :
  Forall2 (fun piece req =>
             ∃ name count,
               PyStr.split ":" piece = [name; count]
               ∧ PyStr.int int_max_str_digits count
                 = inr (InstancePCIRequest.count req))
          (PyStr.split "," "gpu:0")
          [ {| InstancePCIRequest.count := 0;
               InstancePCIRequest.spec := [Sample.spec_a];
               InstancePCIRequest.alias_name := Some "gpu";
               InstancePCIRequest.numa_policy := Some "legacy";
               InstancePCIRequest.request_id := Some "uuid-" |} ].
Proof.
  apply (translate_counts (Sample.conf [Sample.gpu_a] false) "gpu:0" None
           Sample.start _
           {| alias_cache := Some Sample.gpu_table;
              uuid_calls := 1;
              warnings := [] |}).
  vm_compute. reflexivity.
Defined.

(** C7 as stated fails on the counts "0" and "-2": both translations
    return, with a request of count 0 and a request of count -2. *)
Lemma translate_counts_counterexample :
  fst (_translate_alias_to_requests (Sample.conf [Sample.gpu_a] false) "gpu:0"
         None Sample.start)
  = inr [ {| InstancePCIRequest.count := 0;
             InstancePCIRequest.spec := [Sample.spec_a];
             InstancePCIRequest.alias_name := Some "gpu";
             InstancePCIRequest.numa_policy := Some "legacy";
             InstancePCIRequest.request_id := Some "uuid-" |} ]
  ∧ fst (_translate_alias_to_requests (Sample.conf [Sample.gpu_a] false)
           "gpu:-2" None Sample.start)
    = inr [ {| InstancePCIRequest.count := -2;
               InstancePCIRequest.spec := [Sample.spec_a];
               InstancePCIRequest.alias_name := Some "gpu";
               InstancePCIRequest.numa_policy := Some "legacy";
               InstancePCIRequest.request_id := Some "uuid-" |} ].
Proof. split; vm_compute; reflexivity. Qed.

(** The theorem C6 at the table of [nic] and [qat]. *)
Lemma translate_order_and_ids_witness :
  ∃ ra rb st2,
    _translate_alias_to_requests (Sample.conf [Sample.nic; Sample.qat] false)
                                 "a:1,b:3" None Sample.start
    = (inr [ra; rb], st2)
    ∧ InstancePCIRequest.alias_name ra = Some "a"
    ∧ InstancePCIRequest.count ra = 1
    ∧ InstancePCIRequest.spec ra = snd (snd (Sample.ab_table !!! 0%nat))
    ∧ InstancePCIRequest.alias_name rb = Some "b"
    ∧ InstancePCIRequest.count rb = 3
    ∧ InstancePCIRequest.spec rb = snd (snd (Sample.ab_table !!! 1%nat))
    ∧ InstancePCIRequest.request_id ra ≠ InstancePCIRequest.request_id rb.
Proof.
  apply (proj1 (translate_order_and_ids sample_uuid_fresh)
           (Sample.conf [Sample.nic; Sample.qat] false) None Sample.start
           Sample.ab_table Sample.ab_cached "required" _ "legacy" _).
  - intros p. discriminate.
  - compute_done.
  - compute_done.
  - vm_compute. reflexivity.
  - vm_compute. reflexivity.
  - vm_compute. reflexivity.
Defined.

Example translate_a_b_ex :
  map (fun req => (InstancePCIRequest.alias_name req,
                   InstancePCIRequest.count req,
                   InstancePCIRequest.numa_policy req,
                   InstancePCIRequest.request_id req))
      (match fst (_translate_alias_to_requests
                    (Sample.conf [Sample.nic; Sample.qat] false)
                    " a :1,b: 3 " None Sample.start) with
       | inr reqs => reqs
       | inl _ => []
       end)
  = [(Some "a", 1, Some "required", Some "uuid-");
     (Some "b", 3, Some "legacy", Some "uuid-1")].
Proof. vm_compute. reflexivity. Qed.

Example translate_errors_ex :
  fst (_translate_alias_to_requests (Sample.conf [Sample.gpu_a] false)
         "tpu:1" None Sample.start)
  = inl (PciRequestAliasNotDefined "tpu")
  ∧ fst (_translate_alias_to_requests (Sample.conf [Sample.gpu_a] false)
           "gpu:two" None Sample.start)
    = inl (ValueError "invalid literal for int() with base 10: 'two'")
  ∧ fst (_translate_alias_to_requests (Sample.conf [Sample.gpu_a] false)
           "gpu" None Sample.start)
    = inl (ValueError "not enough values to unpack (expected 2, got 1)")
  ∧ fst (_translate_alias_to_requests
           (Sample.conf [Sample.gpu_a; Sample.gpu_pf] false)
           "gpu:1" None Sample.start)
    = inl (PciInvalidAlias None (Some "Device type mismatch for alias 'gpu'")).
Proof. repeat split; vm_compute; reflexivity. Qed.

(** The theorem C8 at a VIF without [pci_slot]. *)
Lemma no_request_cases_witness :
  get_instance_pci_request_from_vif Sample.context
    (Sample.instance_at "host1" [Sample.request_0; Sample.request_1])
    Sample.vif_plain Sample.start
  = (inr None, Sample.start).
Proof.
  apply (proj1 (no_request_cases Sample.context
                  (Sample.instance_at "host1" [Sample.request_0; Sample.request_1])
                  Sample.vif_plain Sample.start)).
  intros profile [= <-]. vm_compute. reflexivity.
Defined.

Example no_request_ex :
  get_instance_pci_request_from_vif Sample.context
    (Sample.instance_at "host2" [Sample.request_0; Sample.request_1])
    Sample.vif_pci Sample.start
  = (inr None,
     {| alias_cache := None;
        uuid_calls := 0;
        warnings := ["expected to find compute node with host host2 and node "
                     ++ "node1 when getting instance PCI request from VIF"] |})
  ∧ get_instance_pci_request_from_vif Sample.context
      {| Instance.host := "host1"; Instance.node := "node1";
         Instance.pci_devices := [Sample.device_elsewhere];
         Instance.pci_requests :=
           {| InstancePCIRequests.requests := [Sample.request_0] |} |}
      Sample.vif_pci Sample.start
    = (inr None, Sample.start).
Proof. split; vm_compute; reflexivity. Qed.

(** The theorem C9 at the device bound on node 7: its request is not among
    the requests of the instance in the first case, and is the second of them
    in the other. *)
Lemma request_of_bound_device_witness :
  get_instance_pci_request_from_vif Sample.context
    (Sample.instance_at "host1" [Sample.request_0]) Sample.vif_pci Sample.start
  = (inl (PciRequestFromVIFNotFound "0000:81:00.1" 7), Sample.start).
Proof.
  apply (request_of_bound_device Sample.context
           (Sample.instance_at "host1" [Sample.request_0]) Sample.vif_pci
           Sample.start {[ "pci_slot" := "0000:81:00.1" ]} "0000:81:00.1" 7
           [Sample.device_elsewhere] Sample.device_here []);
    try (vm_compute; reflexivity); try discriminate.
  - intros d ->%list_elem_of_singleton [Hcn _]. vm_compute in Hcn. discriminate.
  - intros req ->%list_elem_of_singleton. vm_compute. discriminate.
Defined.

Example request_of_bound_device_ex :
  get_instance_pci_request_from_vif Sample.context
    (Sample.instance_at "host1" [Sample.request_0; Sample.request_1])
    Sample.vif_pci Sample.start
  = (inr (Some Sample.request_1), Sample.start).
Proof. vm_compute. reflexivity. Qed.

End SampleRequestFacts.

(** * Further properties of the module *)

(** ** Entries as they are read *)

Section ReadFacts.

Context `{Externals}.

Lemma rstrip_idem s : PyStr.rstrip (PyStr.rstrip s) = PyStr.rstrip s.
Proof.
  induction s as [|c s IH]; simpl; [done|].
  destruct (PyStr.rstrip s) as [|d r] eqn:E.
  - destruct (PyStr.isspace c) eqn:Ec; simpl; [done|]. by rewrite Ec.
  - simpl. simpl in IH. by rewrite IH.
Qed.

Lemma lstrip_clean s :
  match PyStr.lstrip s with
  | String c _ => PyStr.isspace c = false
  | EmptyString => True
  end.
Proof.
  induction s as [|c s IH]; simpl; [done|].
  destruct (PyStr.isspace c) eqn:Ec; [done|]. simpl. done.
Qed.

Lemma rstrip_head c s :
  PyStr.isspace c = false →
  ∃ r, PyStr.rstrip (String c s) = String c r.
Proof.
  intros Hc. simpl. destruct (PyStr.rstrip s); [rewrite Hc|]; by eexists.
Qed.

(** [strip] leaves a stripped string as it is. *)
Lemma strip_idem s : PyStr.strip (PyStr.strip s) = PyStr.strip s.
Proof.
  unfold PyStr.strip. pose proof (lstrip_clean s) as Hclean.
  destruct (PyStr.lstrip s) as [|c r] eqn:E; [done|].
  destruct (rstrip_head c r Hclean) as [r' Hr]. rewrite Hr.
  assert (PyStr.lstrip (String c r') = String c r') as ->.
  { simpl. by rewrite Hclean. }
  by rewrite <- Hr, rstrip_idem.
Qed.

(** What the loop keeps of [live_migratable]. *)
Lemma read_alias_live_migratable j name policy s :
  read_alias j = inr (name, policy, s) →
  ∃ d, j = inr (JObject d)
       ∧ match d !! "live_migratable" with
         | Some (JString lm) =>
             ∃ b, bool_from_string lm = inr b
                  ∧ s !! "live_migratable"
                    = Some (if b : bool then "true" else "false")
         | _ => s !! "live_migratable" = None
         end.
Proof.
  unfold read_alias. destruct j as [e|loaded]; [done|]. simpl.
  unfold validate. destruct (_ALIAS_SCHEMA loaded) eqn:Hschema; [|done]. simpl.
  destruct loaded as [| | | | | |d]; try done.
  pose proof (members_str_lookup d) as Hm.
  set (m := members_str (JObject d)) in *.
  destruct (m !! "name") as [n|] eqn:Hname; [|done]. simpl.
  set (m1 := match delete "numa_policy" (delete "name" m) !! "device_type" with
             | Some t => if String.eqb t "" then _ else _
             | None => _
             end).
  assert (m1 !! "live_migratable" = m !! "live_migratable") as Hlm.
  { unfold m1.
    destruct (delete "numa_policy" (delete "name" m) !! "device_type") as [t|];
      [destruct (String.eqb t "")|];
      rewrite ?lookup_insert_ne by done; by rewrite !lookup_delete_ne. }
  rewrite Hlm, Hm. intros Hrest. exists d. split; [done|].
  destruct (d !! "live_migratable") as [[| | | |lm| |]|]; simpl in Hrest;
    try (injection Hrest as <- <- <-; apply lookup_delete_eq).
  destruct (bool_from_string lm) as [e|b]; [done|]. simpl in Hrest.
  injection Hrest as <- <- <-. exists b. split; [done|].
  apply lookup_insert_eq.
Qed.

(** X1. What the loop of [get_alias_from_config] keeps of an entry is
    normalized: the name is stripped; the NUMA policy is the default or one of
    the policies of the enumeration; a [dev_type] is one of the three device
    types of the schema; [vendor_id] and [product_id] match the vendor
    pattern; [live_migratable] is "true" or "false"; and the keys [name],
    [numa_policy] and [device_type] are gone from the spec. *)
Theorem read_alias_normalized j name policy s :
  read_alias j = inr (name, policy, s) →
  PyStr.strip name = name
  ∧ (policy = LEGACY ∨ policy ∈ PCINUMAAffinityPolicy_ALL)
  ∧ (∀ t, s !! "dev_type" = Some t → t ∈ [STANDARD; SRIOV_PF; SRIOV_VF])
  ∧ (∀ k v, k ∈ ["vendor_id"; "product_id"] → s !! k = Some v →
            PCI_VENDOR_PATTERN v = true)
  ∧ (∀ v, s !! "live_migratable" = Some v → v = "true" ∨ v = "false")
  ∧ s !! "name" = None
  ∧ s !! "numa_policy" = None
  ∧ s !! "device_type" = None.
Proof.
  intros Hread.
  destruct (read_alias_live_migratable _ _ _ _ Hread) as (d' & Hj' & Hlm).
  destruct (read_alias_inv _ _ _ _ Hread)
    as (d & Hj & Hschema & (n & Hn & ->) & -> & Hdev & Hkeys & ? & ? & ?).
  rewrite Hj in Hj'. injection Hj' as <-.
  split; [apply strip_idem|]. split; [|split; [|split; [|split]]]; [..|done].
  - destruct (d !! "numa_policy") as [v|] eqn:E; [|by left].
    destruct (schema_members _ _ _ Hschema E) as (ok & p & Hget & -> & Hok).
    simpl in Hget. injection Hget as <-.
    destruct (String.eqb p ""); [by left|]. right.
    by apply bool_decide_eq_true_1 in Hok.
  - intros t Ht. rewrite Hdev in Ht.
    destruct (d !! "device_type") as [v|] eqn:E; [|done].
    destruct (schema_members _ _ _ Hschema E) as (ok & t' & Hget & -> & Hok).
    simpl in Hget. injection Hget as <-.
    destruct (String.eqb t' ""); [done|]. injection Ht as <-.
    by apply bool_decide_eq_true_1 in Hok.
  - intros k v Hk Hv. rewrite Hkeys in Hv.
    + destruct (d !! k) as [w|] eqn:E; [|done].
      destruct (schema_members _ _ _ Hschema E) as (ok & v' & Hget & -> & Hok).
      injection Hv as <-.
      apply elem_of_cons in Hk as [->|Hk];
        [|apply list_elem_of_singleton in Hk as ->];
        simpl in Hget; by injection Hget as <-.
    + apply elem_of_cons in Hk as [->|Hk];
        [|apply list_elem_of_singleton in Hk as ->].
      * left.
      * right; left.
  - intros v Hv. destruct (d !! "live_migratable") as [[| | | |lm| |]|];
      try congruence.
    destruct Hlm as (b & _ & Hs). rewrite Hs in Hv. injection Hv as <-.
    destruct b; [by left|by right].
Qed.

End ReadFacts.

(** ** The table that is built *)

Section TableFacts.

Context `{Externals}.

Lemma elem_of_get {V : Type} (d : list (string * V)) k v :
  NoDup (ODict.keys d) → (k, v) ∈ d → ODict.get k d = Some v.
Proof.
  unfold ODict.keys. induction d as [|[k' v'] d IH]; simpl.
  - by intros _ ?%elem_of_nil.
  - intros [Hk' Hd]%NoDup_cons [[= -> ->]|Hin]%elem_of_cons.
    + by rewrite String.eqb_refl.
    + destruct (String.eqb_spec k k') as [->|]; [|by apply IH].
      destruct Hk'. apply list_elem_of_fmap. by exists (k', v).
Qed.

(** The two ways a turn of the loop extends the table. *)
Lemma merge_alias_inv aliases name policy s aliases' :
  merge_alias aliases name policy s = inr aliases' →
  (ODict.get name aliases = None
   ∧ aliases' = ODict.set name (policy, [s]) aliases)
  ∨ (∃ s0 more t,
       ODict.get name aliases = Some (policy, s0 :: more)
       ∧ s0 !! "dev_type" = Some t
       ∧ s !! "dev_type" = Some t
       ∧ aliases' = ODict.set name (policy, (s0 :: more) ++ [s])%list aliases).
Proof.
  unfold merge_alias.
  destruct (ODict.get name aliases) as [[policy0 specs]|].
  - destruct (String.eqb_spec policy0 policy) as [->|]; simpl; [|done].
    destruct specs as [|s0 more]; simpl; [done|].
    destruct (s0 !! "dev_type") as [t0|] eqn:E0; simpl; [|done].
    destruct (s !! "dev_type") as [t|] eqn:E; simpl; [|done].
    destruct (String.eqb_spec t0 t) as [->|]; simpl; [|done].
    intros [= <-]. right. by exists s0, more, t.
  - intros [= <-]. by left.
Qed.

Lemma merge_alias_get aliases name policy s aliases' k :
  merge_alias aliases name policy s = inr aliases' →
  ODict.get k aliases'
  = if String.eqb name k then
      match ODict.get name aliases with
      | Some (p, specs) => Some (p, (specs ++ [s])%list)
      | None => Some (policy, [s])
      end
    else ODict.get k aliases.
Proof.
  intros [(Hnew & ->)|(s0 & more & t & Hold & _ & _ & ->)]%merge_alias_inv.
  - destruct (String.eqb_spec name k) as [<-|Hne].
    + by rewrite get_set_eq, Hnew.
    + by rewrite get_set_ne.
  - destruct (String.eqb_spec name k) as [<-|Hne].
    + by rewrite get_set_eq, Hold.
    + by rewrite get_set_ne.
Qed.

(** What a table holds under a name once further entries are merged into
    it. *)
Definition grouped (before : option (string * list DeviceSpec)) (name : string)
    (parsed : list (string * string * DeviceSpec))
  : option (string * list DeviceSpec) :=
  match before with
  | Some (p, specs) => Some (p, (specs ++ specs_named name parsed)%list)
  | None =>
      match policy_named name parsed with
      | Some p => Some (p, specs_named name parsed)
      | None => None
      end
  end.

Lemma merge_aliases_grouped jaliases aliases result :
  merge_aliases jaliases aliases = inr result →
  ∃ parsed,
    Forall2 (fun j p => read_alias j = inr p) jaliases parsed
    ∧ ∀ name, ODict.get name result
              = grouped (ODict.get name aliases) name parsed.
Proof.
  revert aliases. induction jaliases as [|j jaliases IH]; intros aliases; simpl.
  - intros [= <-]. exists []. split; [constructor|].
    intros name. unfold grouped, specs_named, policy_named. simpl.
    destruct (ODict.get name aliases) as [[p specs]|]; [|done].
    by rewrite app_nil_r.
  - destruct (read_alias j) as [e|[[n p] s]] eqn:Hread; simpl; [done|].
    destruct (merge_alias aliases n p s) as [e|aliases'] eqn:Hstep; simpl;
      [done|].
    intros (parsed & Hall & Hget)%IH.
    exists ((n, p, s) :: parsed). split; [by constructor|].
    intros name. rewrite Hget, (merge_alias_get _ _ _ _ _ name Hstep).
    unfold grouped, specs_named, policy_named, named. simpl.
    destruct (String.eqb_spec n name) as [->|Hne]; simpl.
    + apply merge_alias_inv in Hstep
        as [[Hnew _]|(s0 & more & t & Hold & _)]; rewrite ?Hnew, ?Hold; [done|].
      by rewrite <- app_assoc.
    + done.
Qed.

(** Every alias of the table has a first spec, and those after it have its
    device type. *)
Definition typed_alike (specs : list DeviceSpec) : Prop :=
  ∃ s0 more,
    specs = s0 :: more
    ∧ ∀ s, s ∈ more →
           ∃ t, s0 !! "dev_type" = Some t ∧ s !! "dev_type" = Some t.

Lemma merge_alias_typed_alike aliases name policy s aliases' :
  (∀ k p specs, ODict.get k aliases = Some (p, specs) → typed_alike specs) →
  merge_alias aliases name policy s = inr aliases' →
  ∀ k p specs, ODict.get k aliases' = Some (p, specs) → typed_alike specs.
Proof.
  intros Hinv Hstep k p specs.
  rewrite (merge_alias_get _ _ _ _ _ k Hstep).
  destruct (String.eqb_spec name k) as [<-|Hne]; [|apply Hinv].
  apply merge_alias_inv in Hstep
    as [[Hnew _]|(s0 & more & t & Hold & Ht0 & Ht & _)].
  - rewrite Hnew. intros [= <- <-]. exists s, []. split; [done|].
    by intros ? ?%elem_of_nil.
  - rewrite Hold. intros [= <- <-].
    destruct (Hinv _ _ _ Hold) as (s0' & more' & [= <- <-] & Hmore).
    exists s0, (more ++ [s])%list. split; [done|].
    intros s' [Hs' | ->%list_elem_of_singleton]%elem_of_app; [by apply Hmore|].
    by exists t.
Qed.

Lemma merge_aliases_typed_alike jaliases aliases result :
  (∀ k p specs, ODict.get k aliases = Some (p, specs) → typed_alike specs) →
  merge_aliases jaliases aliases = inr result →
  ∀ k p specs, ODict.get k result = Some (p, specs) → typed_alike specs.
Proof.
  revert aliases. induction jaliases as [|j jaliases IH]; intros aliases Hinv;
    simpl.
  - by intros [= <-].
  - destruct (read_alias j) as [e|[[n p] s]]; simpl; [done|].
    destruct (merge_alias aliases n p s) as [e|aliases'] eqn:Hstep; simpl;
      [done|].
    apply IH. by eapply merge_alias_typed_alike.
Qed.

(** The two validators accept a table under these conditions. *)
Lemma validate_multispec_ok CONF aliases :
  _validate_multispec CONF aliases = inr tt
  ↔ (pci_in_placement CONF = true → ¬ ∃ name, multispec aliases name).
Proof.
  unfold _validate_multispec. destruct (pci_in_placement CONF).
  - destruct (alias_with_multiple_specs aliases) as [|n names] eqn:E.
    + split; [|done]. intros _ _ [name Hname%alias_with_multiple_specs_elem_of].
      rewrite E in Hname. by apply elem_of_nil in Hname.
    + split; [done|]. intros Hnone. destruct Hnone; [done|].
      exists n. apply alias_with_multiple_specs_elem_of. rewrite E. left.
  - split; [by intros _ ?|done].
Qed.

Lemma validate_required_ids_ok CONF aliases :
  _validate_required_ids CONF aliases = inr tt
  ↔ ¬ ∃ name, offending (pci_in_placement CONF) aliases name.
Proof.
  rewrite validate_required_ids_eq. simpl. rewrite <- names_failing_empty.
  destruct (decide (names_failing (lacks_required (pci_in_placement CONF))
                                  aliases = ∅)) as [Heq|Hne].
  - by rewrite bool_decide_eq_false_2 by (by intros Hne).
  - by rewrite bool_decide_eq_true_2.
Qed.

Lemma read_unique jaliases (parsed parsed' : list (string * string * DeviceSpec)) :
  Forall2 (fun j p => read_alias j = inr p) jaliases parsed →
  Forall2 (fun j p => read_alias j = inr p) jaliases parsed' →
  parsed = parsed'.
Proof.
  intros Hall. revert parsed'.
  induction Hall as [|j p js ps Hj _ IH]; intros parsed' Hall'.
  - by inversion Hall'.
  - inversion Hall' as [|? p' ? ps' Hj' Hrest]; subst.
    f_equal; [congruence|by apply IH].
Qed.

Lemma merge_alias_keys aliases name policy s aliases' :
  merge_alias aliases name policy s = inr aliases' →
  ODict.keys aliases'
  = (ODict.keys aliases
     ++ filter (fun m => m ∉ ODict.keys aliases) [name])%list.
Proof.
  intros [(Hnew & ->)|(s0 & more & t & Hold & _ & _ & ->)]%merge_alias_inv;
    rewrite keys_set.
  - rewrite Hnew. rewrite filter_cons_True; [done|].
    by apply get_None_not_key.
  - rewrite Hold. rewrite filter_cons_False, filter_nil, app_nil_r; [done|].
    intros Hnot. apply Hnot. apply get_Some_elem_of in Hold.
    apply list_elem_of_fmap. by eexists (_, _).
Qed.

Lemma merge_aliases_keys jaliases aliases result :
  merge_aliases jaliases aliases = inr result →
  ∃ parsed,
    Forall2 (fun j p => read_alias j = inr p) jaliases parsed
    ∧ ODict.keys result
      = (ODict.keys aliases
         ++ filter (fun m => m ∉ ODict.keys aliases)
                   (first_seen (map (fun p => fst (fst p)) parsed)))%list.
Proof.
  revert aliases. induction jaliases as [|j jaliases IH]; intros aliases; simpl.
  - intros [= <-]. exists []. split; [constructor|]. simpl.
    by rewrite filter_nil, app_nil_r.
  - destruct (read_alias j) as [e|[[n p] s]] eqn:Hread; simpl; [done|].
    destruct (merge_alias aliases n p s) as [e|aliases'] eqn:Hstep; simpl;
      [done|].
    intros (parsed & Hall & Hkeys)%IH.
    exists ((n, p, s) :: parsed). split; [by constructor|].
    rewrite Hkeys, (merge_alias_keys _ _ _ _ _ Hstep). simpl.
    set (seen := first_seen (map (fun p => fst (fst p)) parsed)).
    destruct (decide (n ∈ ODict.keys aliases)) as [Hin|Hnew].
    + rewrite !filter_cons_False by (by intros Hnot).
      rewrite filter_nil, app_nil_r. f_equal.
      rewrite list_filter_filter_l; [done|]. intros m Hm ->. done.
    + rewrite !filter_cons_True by done. rewrite filter_nil.
      rewrite <- app_assoc. simpl. do 2 f_equal.
      rewrite list_filter_filter. apply list_filter_iff. intros m.
      rewrite elem_of_app, list_elem_of_singleton. split.
      * intros Hm. split; [|by intros ->; apply Hm; right].
        intros ?. apply Hm. by left.
      * intros [? ?] [?|?]; done.
Qed.

Lemma merge_aliases_policies jaliases aliases result :
  merge_aliases jaliases aliases = inr result →
  ∃ parsed,
    Forall2 (fun j p => read_alias j = inr p) jaliases parsed
    ∧ Forall (fun p => ∃ specs,
                ODict.get (fst (fst p)) result = Some (snd (fst p), specs))
             parsed.
Proof.
  revert aliases. induction jaliases as [|j jaliases IH]; intros aliases; simpl.
  - intros [= <-]. exists []. split; constructor.
  - destruct (read_alias j) as [e|[[n p] s]] eqn:Hread; simpl; [done|].
    destruct (merge_alias aliases n p s) as [e|aliases'] eqn:Hstep; simpl;
      [done|].
    intros Hrest. destruct (IH _ Hrest) as (parsed & Hall & Hpol).
    exists ((n, p, s) :: parsed). split; [by constructor|].
    constructor; [|done]. simpl.
    destruct (merge_aliases_grouped _ _ _ Hrest) as (parsed' & _ & Hget).
    rewrite Hget, (merge_alias_get _ _ _ _ _ n Hstep), String.eqb_refl.
    apply merge_alias_inv in Hstep
      as [(Hnew & _)|(s0 & more & t & Hold & _)]; rewrite ?Hnew, ?Hold;
      by eexists.
Qed.

(** X2. A table that [get_alias_from_config] returns has distinct names;
    each alias has at least one spec; every spec passes the rule of the mode
    for the required identifiers; and in strict mode each alias has exactly
    one spec. *)
Theorem built_table_invariants CONF aliases :
  get_alias_from_config_wrapped CONF = inr aliases →
  NoDup (ODict.keys aliases)
  ∧ ∀ name policy specs,
      (name, (policy, specs)) ∈ aliases →
      specs ≠ []
      ∧ (pci_in_placement CONF = true → length specs = 1%nat)
      ∧ ∀ s, s ∈ specs → passes (pci_in_placement CONF) s.
Proof.
  unfold get_alias_from_config_wrapped.
  destruct (merge_aliases (pci_alias CONF) []) as [e|table] eqn:Hmerge; [done|].
  unfold _validate_aliases.
  destruct (_validate_multispec CONF table) as [e|[]] eqn:Hmulti; [done|].
  simpl. destruct (_validate_required_ids CONF table) as [e|[]] eqn:Hids;
    [done|].
  simpl. intros [= <-].
  pose proof (proj1 (validate_multispec_ok _ _) Hmulti) as Hsingle.
  apply validate_required_ids_ok in Hids.
  assert (NoDup (ODict.keys table)) as Hkeys.
  { eapply merge_aliases_NoDup; [|exact Hmerge]. apply NoDup_nil_2. }
  split; [done|]. intros name policy specs Hin.
  assert (typed_alike specs) as (s0 & more & -> & _).
  { eapply (merge_aliases_typed_alike _ [] table); [done|exact Hmerge|].
    by apply elem_of_get. }
  split; [done|]. split.
  - intros Hstrict. destruct more as [|s1 more]; [done|].
    destruct (Hsingle Hstrict). exists name, policy, (s0 :: s1 :: more).
    split; [done|]. simpl. lia.
  - intros s Hs.
    destruct (decide (passes (pci_in_placement CONF) s)) as [|Hno]; [done|].
    destruct Hids. by exists name, policy, (s0 :: more), s.
Qed.

(** X3. In a table that [get_alias_from_config] returns, the specs merged
    under one alias all carry a device type, and it is the same for all of
    them. *)
Theorem merged_specs_share_type CONF aliases name policy specs :
  get_alias_from_config_wrapped CONF = inr aliases →
  (name, (policy, specs)) ∈ aliases →
  (1 < length specs)%nat →
  ∃ t, ∀ s, s ∈ specs → s !! "dev_type" = Some t.
Proof.
  unfold get_alias_from_config_wrapped.
  destruct (merge_aliases (pci_alias CONF) []) as [e|table] eqn:Hmerge; [done|].
  destruct (_validate_aliases CONF table); simpl; [done|].
  intros [= <-] Hin Hlen.
  assert (typed_alike specs) as (s0 & more & -> & Hmore).
  { eapply (merge_aliases_typed_alike _ [] table); [done|exact Hmerge|].
    apply elem_of_get; [|done].
    eapply merge_aliases_NoDup; [|exact Hmerge]. apply NoDup_nil_2. }
  destruct more as [|s1 more]; [simpl in Hlen; lia|].
  destruct (Hmore s1) as (t & Ht0 & _); [left|].
  exists t. intros s [->|Hs]%elem_of_cons; [done|].
  destruct (Hmore s Hs) as (t' & Ht0' & Ht'). congruence.
Qed.

(** X4. A table that [get_alias_from_config] returns groups the entries of
    the configuration by name: its names are the names of the entries in the
    order of their first occurrence; under each name it holds the NUMA policy
    of the first entry of that name and the specs of all the entries of that
    name, in the order of the configuration; and every entry has the NUMA
    policy stored under its name. *)
Theorem table_groups_entries CONF aliases :
  get_alias_from_config_wrapped CONF = inr aliases →
  ∃ parsed,
    Forall2 (fun j p => read_alias j = inr p) (pci_alias CONF) parsed
    ∧ ODict.keys aliases = first_seen (map (fun p => fst (fst p)) parsed)
    ∧ (∀ name,
         ODict.get name aliases
         = match policy_named name parsed with
           | Some policy => Some (policy, specs_named name parsed)
           | None => None
           end)
    ∧ Forall (fun p => ∃ specs,
                ODict.get (fst (fst p)) aliases = Some (snd (fst p), specs)
                ∧ snd p ∈ specs) parsed.
Proof.
  unfold get_alias_from_config_wrapped.
  destruct (merge_aliases (pci_alias CONF) []) as [e|table] eqn:Hmerge; [done|].
  destruct (_validate_aliases CONF table); simpl; [done|].
  intros [= <-].
  destruct (merge_aliases_grouped _ _ _ Hmerge) as (parsed & Hall & Hget).
  destruct (merge_aliases_keys _ _ _ Hmerge) as (parsed' & Hall' & Hkeys).
  rewrite <- (read_unique _ _ _ Hall Hall') in Hkeys. clear parsed' Hall'.
  exists parsed. split; [done|]. split; [|split; [done|]].
  - rewrite Hkeys. simpl.
    generalize (first_seen (map (fun p => fst (fst p)) parsed)).
    intros names. induction names as [|m names IH]; [done|].
    rewrite filter_cons_True by apply not_elem_of_nil. by rewrite IH.
  - destruct (merge_aliases_policies _ _ _ Hmerge) as (parsed' & Hall' & Hpol).
    rewrite <- (read_unique _ _ _ Hall Hall') in Hpol. clear parsed' Hall'.
    apply Forall_forall. intros [[n p] s] Hin.
    rewrite Forall_forall in Hpol. destruct (Hpol _ Hin) as [specs Hspecs].
    simpl in *. exists specs. split; [done|].
    assert (s ∈ specs_named n parsed) as Hmember.
    { unfold specs_named, named.
      apply list_elem_of_fmap. exists (n, p, s). split; [done|].
      apply list_elem_of_In, filter_In. split; [by apply list_elem_of_In|].
      simpl. apply String.eqb_refl. }
    rewrite Hget in Hspecs.
    destruct (policy_named n parsed); [|done]. by injection Hspecs as _ <-.
Qed.



(** X6. The two validators together accept a table exactly when every spec
    passes the rule of the mode for the required identifiers and, in strict
    mode, no alias has more than one spec; outside strict mode the number of
    specs of an alias is free. *)
Theorem validate_aliases_accepts CONF aliases :
  _validate_aliases CONF aliases = inr tt
  ↔ (pci_in_placement CONF = true →
     ∀ name policy specs,
       (name, (policy, specs)) ∈ aliases → (length specs ≤ 1)%nat)
    ∧ (∀ name policy specs s,
         (name, (policy, specs)) ∈ aliases → s ∈ specs →
         passes (pci_in_placement CONF) s).
Proof.
  assert (_validate_aliases CONF aliases = inr tt
          ↔ _validate_multispec CONF aliases = inr tt
            ∧ _validate_required_ids CONF aliases = inr tt) as ->.
  { unfold _validate_aliases.
    destruct (_validate_multispec CONF aliases) as [e|[]]; simpl.
    - split; [done|]. by intros [? _].
    - split; [by intros ->|by intros [_ ->]]. }
  rewrite validate_multispec_ok, validate_required_ids_ok.
  split; intros [Hmulti Hids]; split.
  - intros Hstrict name policy specs Hin.
    destruct (decide (length specs ≤ 1)%nat) as [|Hlong]; [done|].
    destruct (Hmulti Hstrict). exists name, policy, specs. split; [done|lia].
  - intros name policy specs s Hin Hs.
    destruct (decide (passes (pci_in_placement CONF) s)) as [|Hno]; [done|].
    destruct Hids. by exists name, policy, specs, s.
  - intros Hstrict (name & policy & specs & Hin & Hlong).
    specialize (Hmulti Hstrict _ _ _ Hin). lia.
  - intros (name & policy & specs & s & Hin & Hs & Hno).
    apply Hno. by eapply Hids.
Qed.

(** X7. The outcome of the required-identifier check, message included,
    does not depend on the order of the aliases in the table. *)
Theorem required_ids_order_free CONF aliases aliases' :
  aliases ≡ₚ aliases' →
  _validate_required_ids CONF aliases = _validate_required_ids CONF aliases'.
Proof.
  intros Hperm. rewrite !validate_required_ids_eq. simpl.
  assert (names_failing (lacks_required (pci_in_placement CONF)) aliases
          = names_failing (lacks_required (pci_in_placement CONF)) aliases')
    as ->; [|done].
  apply set_eq. intros n. rewrite !names_failing_elem_of.
  by setoid_rewrite Hperm.
Qed.

End TableFacts.

(** ** The cache and the translation *)

Section MoreTranslateFacts.

Context `{Externals}.

Implicit Types (st : State) (aliases : Alias) (override : option string).

(** X8. Once [get_alias_from_config] has returned a table, every later call
    returns that same table and changes nothing, whatever the configuration
    has become; the call that computed it touched nothing but the cache. *)
Theorem cache_keeps_first_table CONF st aliases st' :
  get_alias_from_config CONF st = (inr aliases, st') →
  alias_cache st' = Some aliases
  ∧ uuid_calls st' = uuid_calls st
  ∧ warnings st' = warnings st
  ∧ ∀ CONF', get_alias_from_config CONF' st' = (inr aliases, st').
Proof.
  unfold get_alias_from_config at 1.
  destruct (alias_cache st) as [cached|] eqn:Hcache.
  - intros [= <- <-]. repeat split; try done.
    intros CONF'. by apply get_alias_from_config_cached.
  - destruct (get_alias_from_config_wrapped CONF) as [e|table]; [done|].
    intros [= <- <-]. repeat split.
Qed.

(** X9. A call of [get_alias_from_config] that raises raises a
    [PciInvalidAlias], leaves the state as it was, with an empty cache, and a
    later call under a configuration that builds a table returns that
    table. *)
Theorem failure_is_not_cached CONF st e st' :
  get_alias_from_config CONF st = (inl e, st') →
  st' = st
  ∧ alias_cache st = None
  ∧ (∃ message reason, e = PciInvalidAlias message reason)
  ∧ ∀ CONF' aliases,
      get_alias_from_config_wrapped CONF' = inr aliases →
      fst (get_alias_from_config CONF' st') = inr aliases.
Proof.
  unfold get_alias_from_config at 1.
  destruct (alias_cache st) as [cached|] eqn:Hcache; [done|].
  destruct (get_alias_from_config_wrapped CONF) as [e'|table] eqn:Hrun; [|done].
  intros [= <- <-]. split; [done|]. split; [done|].
  split; [by eapply table_errors_are_PciInvalidAlias|].
  intros CONF' aliases Hok. unfold get_alias_from_config.
  by rewrite Hcache, Hok.
Qed.

Lemma translate_pairs_app aliases override pre post acc st :
  translate_pairs aliases override (pre ++ post) acc st
  = match translate_pairs aliases override pre acc st with
    | (inl e, st') => (inl e, st')
    | (inr reqs, st') => translate_pairs aliases override post reqs st'
    end.
Proof.
  revert acc st. induction pre as [|item pre IH]; intros acc st; simpl; [done|].
  destruct item as [|name [|count [|? ?]]]; try done.
  destruct (ODict.get (PyStr.strip name) aliases) as [[policy specs]|]; [|done].
  destruct (PyStr.int int_max_str_digits count) as [msg|z]; [done|].
  unfold mbind, M_bind, uuidutils_generate_uuid. simpl.
  destruct (InstancePCIRequest.new _ _ _ _ _) as [e|request]; [done|]. apply IH.
Qed.

(** Pieces that are all well formed are all translated. *)
Lemma translate_pairs_ok aliases override pieces acc st :
  Forall (well_formed aliases override) pieces →
  ∃ reqs,
    translate_pairs aliases override (map (PyStr.split ":") pieces) acc st
    = (inr (acc ++ reqs)%list,
       {| alias_cache := alias_cache st;
          uuid_calls := (uuid_calls st + length pieces)%nat;
          warnings := warnings st |})
    ∧ length reqs = length pieces.
Proof.
  intros Hall. revert acc st.
  induction Hall as [|piece pieces Hpiece _ IH]; intros acc st; simpl.
  - exists []. rewrite app_nil_r, Nat.add_0_r. by destruct st.
  - destruct Hpiece
      as (name & count & policy & specs & z & -> & Hget & Hint & Hpolicy).
    rewrite Hget, Hint. unfold mbind, M_bind, uuidutils_generate_uuid. simpl.
    rewrite new_ok by done.
    edestruct IH as (reqs & -> & Hlen). simpl.
    eexists (_ :: reqs). rewrite <- app_assoc. simpl.
    split; [|by rewrite Hlen]. do 2 f_equal. lia.
Qed.

(** Pieces that are all translated are all well formed. *)
Lemma translate_pairs_well_formed aliases override pieces acc st reqs st' :
  translate_pairs aliases override (map (PyStr.split ":") pieces) acc st
  = (inr reqs, st') →
  Forall (well_formed aliases override) pieces.
Proof.
  revert acc st. induction pieces as [|piece pieces IH]; intros acc st; simpl;
    [by constructor|].
  destruct (PyStr.split ":" piece) as [|name [|count [|? ?]]] eqn:Hsplit;
    try discriminate.
  destruct (ODict.get (PyStr.strip name) aliases) as [[policy specs]|] eqn:Hget;
    [|discriminate].
  destruct (PyStr.int int_max_str_digits count) as [msg|z] eqn:Hint;
    [discriminate|].
  unfold mbind, M_bind, uuidutils_generate_uuid. simpl.
  destruct (InstancePCIRequest.new _ _ _ _ _) as [e|request] eqn:Hnew;
    [discriminate|].
  apply new_inv in Hnew as [Hpolicy _].
  intros Hrest. constructor; [|by eapply IH].
  by exists name, count, policy, specs, z.
Qed.

(** The state in which the translation starts its loop. *)
Lemma get_alias_from_config_state CONF st aliases st1 :
  get_alias_from_config CONF st = (inr aliases, st1) →
  st1 = {| alias_cache := Some aliases;
           uuid_calls := uuid_calls st;
           warnings := warnings st |}.
Proof.
  unfold get_alias_from_config.
  destruct (alias_cache st) as [cached|] eqn:Hcache.
  - intros [= <- <-]. destruct st; simpl in *. by rewrite Hcache.
  - destruct (get_alias_from_config_wrapped CONF); [done|]. by intros [= <- <-].
Qed.

(** X10. Against a table that [get_alias_from_config] returns, the
    translation of an alias string returns exactly when every
    comma-separated piece has one colon, a name that once stripped is an
    alias of the table, a count that [int] reads, and for policy, the
    override unless it is none or empty and the policy of the alias then, a
    string of [PCINUMAAffinityPolicy.ALL]. *)
Theorem translate_succeeds_iff CONF alias_spec override st aliases st1 :
  get_alias_from_config CONF st = (inr aliases, st1) →
  (∃ reqs st2,
     _translate_alias_to_requests CONF alias_spec override st = (inr reqs, st2))
  ↔ Forall (well_formed aliases override) (PyStr.split "," alias_spec).
Proof.
  intros Hcfg. split.
  - intros (reqs & st2 & Hrun).
    apply translate_inv in Hrun as (aliases' & st1' & Hcfg' & _ & Hloop).
    rewrite Hcfg in Hcfg'. injection Hcfg' as <- <-.
    by eapply translate_pairs_well_formed.
  - intros Hall. unfold _translate_alias_to_requests, mbind, M_bind.
    rewrite Hcfg.
    destruct (translate_pairs_ok aliases override _ [] st1 Hall)
      as (reqs & Hrun & _).
    rewrite Hrun. by eexists _, _.
Qed.

(** X11. When the pieces before it are well formed, policy included, a
    piece with one colon whose stripped name is not an alias of the table
    makes the translation raise [PciRequestAliasNotDefined] with that
    stripped name, whatever its count and whatever follows; one uuid has been
    drawn for each piece before it. *)
Theorem translate_undefined_alias CONF alias_spec override st aliases st1
    pre piece post name count :
  get_alias_from_config CONF st = (inr aliases, st1) →
  PyStr.split "," alias_spec = (pre ++ piece :: post)%list →
  Forall (well_formed aliases override) pre →
  PyStr.split ":" piece = [name; count] →
  ODict.get (PyStr.strip name) aliases = None →
  _translate_alias_to_requests CONF alias_spec override st
  = (inl (PciRequestAliasNotDefined (PyStr.strip name)),
     {| alias_cache := Some aliases;
        uuid_calls := (uuid_calls st + length pre)%nat;
        warnings := warnings st |}).
Proof.
  intros Hcfg Hsplit Hpre Hpiece Hget.
  unfold _translate_alias_to_requests, mbind, M_bind. rewrite Hcfg, Hsplit.
  rewrite map_app, translate_pairs_app.
  destruct (translate_pairs_ok aliases override pre [] st1 Hpre)
    as (reqs & -> & _).
  simpl. rewrite Hpiece, Hget.
  by rewrite (get_alias_from_config_state _ _ _ _ Hcfg).
Qed.

(** X12. When the pieces before it are well formed, policy included, a
    piece without exactly one colon, or one whose name is an alias and whose
    count [int] does not read, makes the translation raise [ValueError]; one
    uuid has been drawn for each piece before it. *)
Theorem translate_malformed CONF alias_spec override st aliases st1
    pre piece post :
  get_alias_from_config CONF st = (inr aliases, st1) →
  PyStr.split "," alias_spec = (pre ++ piece :: post)%list →
  Forall (well_formed aliases override) pre →
  length (PyStr.split ":" piece) ≠ 2%nat
  ∨ (∃ name count policy specs msg,
       PyStr.split ":" piece = [name; count]
       ∧ ODict.get (PyStr.strip name) aliases = Some (policy, specs)
       ∧ PyStr.int int_max_str_digits count = inl msg) →
  ∃ msg,
    _translate_alias_to_requests CONF alias_spec override st
    = (inl (ValueError msg),
       {| alias_cache := Some aliases;
          uuid_calls := (uuid_calls st + length pre)%nat;
          warnings := warnings st |}).
Proof.
  intros Hcfg Hsplit Hpre Hbad.
  unfold _translate_alias_to_requests, mbind, M_bind. rewrite Hcfg, Hsplit.
  rewrite map_app, translate_pairs_app.
  destruct (translate_pairs_ok aliases override pre [] st1 Hpre)
    as (reqs & -> & _).
  rewrite (get_alias_from_config_state _ _ _ _ Hcfg). simpl.
  destruct Hbad as [Hlen|(name & count & policy & specs & msg & -> & Hget & Hint)].
  - destruct (PyStr.split ":" piece) as [|a [|b [|c rest]]]; simpl in Hlen;
      try done; by eexists.
  - rewrite Hget, Hint. by eexists.
Qed.

(** X21. When the pieces before it are well formed, a piece with one colon,
    an alias of the table and a count that [int] reads, but for which the
    policy, the override unless it is none or empty and the policy of the
    alias then, is no string of [PCINUMAAffinityPolicy.ALL], makes the
    translation raise the [ValueError] of the constructor of the request,
    which names that policy; the uuid of the refused request has been drawn,
    after one for each piece before it. *)
Theorem translate_refused_policy CONF alias_spec override st aliases st1
    pre piece post name count policy specs z :
  get_alias_from_config CONF st = (inr aliases, st1) →
  PyStr.split "," alias_spec = (pre ++ piece :: post)%list →
  Forall (well_formed aliases override) pre →
  PyStr.split ":" piece = [name; count] →
  ODict.get (PyStr.strip name) aliases = Some (policy, specs) →
  PyStr.int int_max_str_digits count = inr z →
  or_ override policy ∉ PCINUMAAffinityPolicy_ALL →
  _translate_alias_to_requests CONF alias_spec override st
  = (inl (ValueError ("Field value " ++ or_ override policy ++ " is invalid")),
     {| alias_cache := Some aliases;
        uuid_calls := S (uuid_calls st + length pre);
        warnings := warnings st |}).
Proof.
  intros Hcfg Hsplit Hpre Hpiece Hget Hint Hpolicy.
  unfold _translate_alias_to_requests, mbind, M_bind. rewrite Hcfg, Hsplit.
  rewrite map_app, translate_pairs_app.
  destruct (translate_pairs_ok aliases override pre [] st1 Hpre)
    as (reqs & -> & _).
  rewrite (get_alias_from_config_state _ _ _ _ Hcfg). simpl.
  rewrite Hpiece, Hget, Hint.
  unfold mbind, M_bind, uuidutils_generate_uuid. simpl.
  by rewrite new_refused.
Qed.

(** X13. The requests of a translation that returns are taken from the
    table in the cache: each carries the name of an alias of the table and
    the spec list stored under it, unchanged, and an identifier; there is one
    request for each comma-separated piece and one uuid drawn for each; the
    warnings are untouched. *)
Theorem translate_requests_sound CONF alias_spec override st reqs st2 :
  _translate_alias_to_requests CONF alias_spec override st = (inr reqs, st2) →
  ∃ aliases,
    alias_cache st2 = Some aliases
    ∧ (∀ old, alias_cache st = Some old → old = aliases)
    ∧ length reqs = length (PyStr.split "," alias_spec)
    ∧ uuid_calls st2 = (uuid_calls st + length reqs)%nat
    ∧ warnings st2 = warnings st
    ∧ Forall (fun req =>
                ∃ name policy id,
                  InstancePCIRequest.alias_name req = Some name
                  ∧ ODict.get name aliases
                    = Some (policy, InstancePCIRequest.spec req)
                  ∧ InstancePCIRequest.request_id req = Some id) reqs.
Proof.
  intros (aliases & st1 & Hcfg & _ & Hloop)%translate_inv.
  pose proof (get_alias_from_config_state _ _ _ _ Hcfg) as ->.
  apply translate_pairs_inv in Hloop
    as (new & -> & Hnew & Hids & Hcache & Hcalls & Hwarn).
  simpl in *. exists aliases.
  assert (length new = length (PyStr.split "," alias_spec)) as Hlen.
  { apply Forall2_length in Hnew. by rewrite length_map in Hnew. }
  split; [done|]. split.
  { intros old Hold. unfold get_alias_from_config in Hcfg.
    rewrite Hold in Hcfg. by injection Hcfg as ->. }
  split; [done|]. split; [by rewrite Hcalls, length_map, Hlen|].
  split; [done|].
  apply Forall_forall. intros req Hreq.
  destruct (proj1 (list_elem_of_lookup _ _) Hreq) as [i Hi].
  destruct (Forall2_lookup_r _ _ _ _ _ Hnew Hi)
    as (item & _ & name & count & policy & specs & _ & Hget & _ & Hspec & Hname & _).
  assert (∃ id, InstancePCIRequest.request_id req = Some id) as [id Hid].
  { assert (map InstancePCIRequest.request_id new !! i
            = Some (InstancePCIRequest.request_id req)) as Hlook.
    { by rewrite list_lookup_fmap, Hi. }
    rewrite Hids, list_lookup_fmap in Hlook.
    destruct (seq _ _ !! i); [|done]. simpl in Hlook.
    injection Hlook as <-. by eexists. }
  exists (PyStr.strip name), policy, id. by rewrite Hspec.
Qed.

(** X14. In a translation that returns, an override other than the empty
    string is the NUMA policy of every request; without one, or with the
    empty string, every request has the policy that the table stores for its
    alias. *)
Theorem override_applies_to_all CONF alias_spec override st reqs st2 :
  _translate_alias_to_requests CONF alias_spec override st = (inr reqs, st2) →
  (∀ p, override = Some p → p ≠ "" →
        Forall (fun req => InstancePCIRequest.numa_policy req = Some p) reqs)
  ∧ (override = None ∨ override = Some "" →
     ∃ aliases,
       alias_cache st2 = Some aliases
       ∧ Forall (fun req =>
                   ∃ name specs policy,
                     InstancePCIRequest.alias_name req = Some name
                     ∧ ODict.get name aliases = Some (policy, specs)
                     ∧ InstancePCIRequest.numa_policy req = Some policy) reqs).
Proof.
  intros (aliases & st1 & Hcfg & _ & Hloop)%translate_inv.
  pose proof (get_alias_from_config_state _ _ _ _ Hcfg) as ->.
  apply translate_pairs_inv in Hloop as (new & -> & Hnew & _ & Hcache & _).
  simpl in *.
  assert (∀ P : InstancePCIRequest.t → Prop,
            (∀ item req, emitted aliases override item req → P req) →
            Forall P new) as Hevery.
  { intros P HP. apply Forall_forall. intros req Hreq.
    destruct (proj1 (list_elem_of_lookup _ _) Hreq) as [i Hi].
    destruct (Forall2_lookup_r _ _ _ _ _ Hnew Hi) as (item & _ & Hitem).
    by eapply HP. }
  split.
  - intros p -> Hp. apply Hevery.
    intros item req (name & count & policy & specs & _ & _ & _ & _ & _ & ->).
    simpl. by destruct (String.eqb_spec p "").
  - intros Hnone. exists aliases. split; [done|]. apply Hevery.
    intros item req (name & count & policy & specs & _ & Hget & _ & _ & Hname & ->).
    exists (PyStr.strip name), specs, policy. split; [done|]. split; [done|].
    by destruct Hnone as [-> | ->].
Qed.

(** X15. A flavor without the alias extra spec has an empty request set,
    and the configuration is not looked at: the state stays as it was even
    under a configuration that builds no table. A flavor with it has the
    requests, or the exception, of the translation of its value. *)
Theorem flavor_requests CONF flavor override st :
  ((∀ extra, Flavor.extra_specs flavor = Some extra →
             extra !! "pci_passthrough:alias" = None) →
   get_pci_requests_from_flavor CONF flavor override st
   = (inr {| InstancePCIRequests.requests := [] |}, st))
  ∧ (∀ extra alias_spec,
       Flavor.extra_specs flavor = Some extra →
       extra !! "pci_passthrough:alias" = Some alias_spec →
       get_pci_requests_from_flavor CONF flavor override st
       = match _translate_alias_to_requests CONF alias_spec override st with
         | (inr reqs, st') =>
             (inr {| InstancePCIRequests.requests := reqs |}, st')
         | (inl e, st') => (inl e, st')
         end).
Proof.
  unfold get_pci_requests_from_flavor. split.
  - intros Hnone. destruct (Flavor.extra_specs flavor) as [extra|]; [|done].
    by rewrite (Hnone extra eq_refl).
  - intros extra alias_spec -> ->. unfold mbind, M_bind.
    by destruct (_translate_alias_to_requests CONF alias_spec override st)
      as [[e|reqs] st'].
Qed.

(** The identifiers of a translation are those of the calls to the uuid
    generator that it made, in their order. *)
Lemma translate_ids CONF alias_spec override st reqs st2 :
  _translate_alias_to_requests CONF alias_spec override st = (inr reqs, st2) →
  map InstancePCIRequest.request_id reqs
  = map (fun n => Some (generate_uuid n)) (seq (uuid_calls st) (length reqs))
  ∧ uuid_calls st2 = (uuid_calls st + length reqs)%nat.
Proof.
  intros (aliases & st1 & Hcfg & Hcalls1 & Hloop)%translate_inv.
  apply translate_pairs_inv in Hloop as (new & -> & Hnew & Hids & _ & Hcalls & _).
  simpl. apply Forall2_length in Hnew. rewrite <- Hnew.
  by rewrite Hids, Hcalls, Hcalls1.
Qed.

(** X20. With a uuid generator that never repeats itself, two translations
    made one after the other in a process share no [request_id]: the
    identifiers of both together are pairwise different. *)
Theorem translations_share_no_id CONF CONF' spec1 spec2 override1 override2
    st reqs1 st1 reqs2 st2 :
  (∀ i j, generate_uuid i = generate_uuid j → i = j) →
  _translate_alias_to_requests CONF spec1 override1 st = (inr reqs1, st1) →
  _translate_alias_to_requests CONF' spec2 override2 st1 = (inr reqs2, st2) →
  NoDup (map InstancePCIRequest.request_id (reqs1 ++ reqs2)).
Proof.
  intros Hfresh [Hids1 Hcalls1]%translate_ids [Hids2 _]%translate_ids.
  rewrite map_app, Hids1, Hids2, Hcalls1, <- map_app, <- seq_app.
  by apply fresh_ids_NoDup.
Qed.

End MoreTranslateFacts.

(** ** More on the request behind a VIF *)

Section MoreResolverFacts.

Context `{Externals}.

(** The device test of the resolver, read back. *)
Lemma device_test_true cn_id addr (dev : PciDevice.t) :
  (PciDevice.compute_node_id dev =? cn_id)
  && String.eqb (PciDevice.address dev) addr = true →
  PciDevice.compute_node_id dev = cn_id ∧ PciDevice.address dev = addr.
Proof.
  intros [Hcn Haddr]%andb_true_iff. split.
  - by apply Z.eqb_eq.
  - by apply String.eqb_eq.
Qed.

(** The outcomes of the resolver, case by case. *)
Lemma resolver_cases context instance vif st r st' :
  get_instance_pci_request_from_vif context instance vif st = (r, st') →
  (r = inr None ∧ st' = st)
  ∨ (∃ e warning,
       get_by_host_and_nodename context (Instance.host instance)
                                (Instance.node instance) = inl e
       ∧ isinstance_NotFound e = true
       ∧ r = inr None
       ∧ st' = {| alias_cache := alias_cache st;
                  uuid_calls := uuid_calls st;
                  warnings := (warnings st ++ [warning])%list |})
  ∨ (∃ e, get_by_host_and_nodename context (Instance.host instance)
                                   (Instance.node instance) = inl e
          ∧ isinstance_NotFound e = false
          ∧ r = inl e ∧ st' = st)
  ∨ (∃ profile addr cn_id dev,
       VIF.profile vif = Some profile
       ∧ profile !! "pci_slot" = Some addr
       ∧ addr ≠ ""
       ∧ get_by_host_and_nodename context (Instance.host instance)
                                  (Instance.node instance) = inr cn_id
       ∧ dev ∈ Instance.pci_devices instance
       ∧ PciDevice.compute_node_id dev = cn_id
       ∧ PciDevice.address dev = addr
       ∧ st' = st
       ∧ ((∃ req,
             r = inr (Some req)
             ∧ req ∈ InstancePCIRequests.requests (Instance.pci_requests instance)
             ∧ InstancePCIRequest.request_id req = PciDevice.request_id dev)
          ∨ (r = inl (PciRequestFromVIFNotFound addr cn_id)
             ∧ ∀ req,
                 req ∈ InstancePCIRequests.requests
                         (Instance.pci_requests instance) →
                 InstancePCIRequest.request_id req
                 ≠ PciDevice.request_id dev))).
Proof.
  unfold get_instance_pci_request_from_vif.
  destruct (VIF.profile vif) as [profile|] eqn:Hprofile;
    [|intros [= <- <-]; by left].
  destruct (bool_decide (profile ≠ ∅)); [|intros [= <- <-]; by left].
  destruct (profile !! "pci_slot") as [addr|] eqn:Hslot;
    [|intros [= <- <-]; by left].
  destruct (String.eqb_spec addr "") as [->|Haddr]; [intros [= <- <-]; by left|].
  destruct (get_by_host_and_nodename context (Instance.host instance)
                                     (Instance.node instance))
    as [e|cn_id] eqn:Hlookup.
  - destruct (isinstance_NotFound e) eqn:Hcaught; intros [= <- <-].
    + right; left. by eexists _, _.
    + right; right; left. by eexists.
  - destruct (List.find _ (Instance.pci_devices instance)) as [dev|] eqn:Hdev;
      [|intros [= <- <-]; by left].
    apply List.find_some in Hdev as [Hin [Hcn Hdevaddr]%device_test_true].
    apply list_elem_of_In in Hin.
    destruct (List.find _ (InstancePCIRequests.requests _)) as [req|] eqn:Hreq;
      intros [= <- <-]; right; right; right;
      exists profile, addr, cn_id, dev; repeat (split; [done|]).
    + left. apply List.find_some in Hreq as [Hreq Hid].
      exists req. split; [done|]. split; [by apply list_elem_of_In|].
      by apply bool_decide_eq_true_1 in Hid.
    + right. split; [done|]. intros req Hr%list_elem_of_In.
      eapply List.find_none in Hreq; [|exact Hr].
      by apply bool_decide_eq_false_1 in Hreq.
Qed.

(** X16. A request that the resolver returns is a request of the instance,
    and the instance has a PCI device on the compute node found, at the
    address of the VIF, with the [request_id] of that request; the state is
    unchanged. *)
Theorem resolved_request_is_bound context instance vif st req st' :
  get_instance_pci_request_from_vif context instance vif st
  = (inr (Some req), st') →
  st' = st
  ∧ req ∈ InstancePCIRequests.requests (Instance.pci_requests instance)
  ∧ ∃ profile addr cn_id dev,
      VIF.profile vif = Some profile
      ∧ profile !! "pci_slot" = Some addr
      ∧ get_by_host_and_nodename context (Instance.host instance)
                                 (Instance.node instance) = inr cn_id
      ∧ dev ∈ Instance.pci_devices instance
      ∧ PciDevice.compute_node_id dev = cn_id
      ∧ PciDevice.address dev = addr
      ∧ InstancePCIRequest.request_id req = PciDevice.request_id dev.
Proof.
  intros [[? _]|[(? & ? & _ & _ & ? & _)|[(? & _ & _ & ? & _)|Hfound]]]%resolver_cases;
    try done.
  destruct Hfound as (profile & addr & cn_id & dev & ? & ? & _ & ? & ? & ? & ?
                      & -> & [(req' & [= <-] & ? & ?)|[? _]]); [|done].
  split; [done|]. split; [done|]. by exists profile, addr, cn_id, dev.
Qed.

(** X17. The resolver raises only in two ways, and never changes the state
    when it raises: [PciRequestFromVIFNotFound], with the address of the VIF
    and the identifier of the compute node found, when a device of the
    instance is bound there and no request of the instance has its
    [request_id]; or the exception of the compute-node lookup itself, when
    that is not a [NotFound]. *)
Theorem resolver_raises context instance vif st e st' :
  get_instance_pci_request_from_vif context instance vif st = (inl e, st') →
  st' = st
  ∧ ((∃ profile addr cn_id dev,
        e = PciRequestFromVIFNotFound addr cn_id
        ∧ VIF.profile vif = Some profile
        ∧ profile !! "pci_slot" = Some addr
        ∧ get_by_host_and_nodename context (Instance.host instance)
                                   (Instance.node instance) = inr cn_id
        ∧ dev ∈ Instance.pci_devices instance
        ∧ PciDevice.compute_node_id dev = cn_id
        ∧ PciDevice.address dev = addr
        ∧ ∀ req,
            req ∈ InstancePCIRequests.requests (Instance.pci_requests instance) →
            InstancePCIRequest.request_id req ≠ PciDevice.request_id dev)
     ∨ (get_by_host_and_nodename context (Instance.host instance)
                                 (Instance.node instance) = inl e
        ∧ ∀ message, e ≠ NotFound message)).
Proof.
  intros [[? _]|[(? & ? & _ & _ & ? & _)|[(e' & ? & Hother & [= <-] & ->)|Hfound]]]%resolver_cases;
    try done.
  - split; [done|]. right. split; [done|]. by intros message ->.
  - destruct Hfound as (profile & addr & cn_id & dev & ? & ? & _ & ? & ? & ? & ?
                        & -> & [(req' & ? & _)|[[= ->] ?]]); [done|].
    split; [done|]. left. by exists profile, addr, cn_id, dev.
Qed.

(** X18. The compute-node lookup matters only for a VIF with an address: a
    [pci_slot] that is the empty string gives no request whatever the lookup
    would do; with an address, an exception of the lookup that
    [except exception.NotFound] does not catch, one that is neither a
    [NotFound] nor of a subclass of it, leaves the resolver as it is, and
    nothing is logged. *)
Theorem resolver_and_lookup context instance vif st profile :
  VIF.profile vif = Some profile →
  (profile !! "pci_slot" = Some "" →
   get_instance_pci_request_from_vif context instance vif st = (inr None, st))
  ∧ (∀ addr e,
       profile !! "pci_slot" = Some addr → addr ≠ "" →
       get_by_host_and_nodename context (Instance.host instance)
                                (Instance.node instance) = inl e →
       isinstance_NotFound e = false →
       get_instance_pci_request_from_vif context instance vif st = (inl e, st)).
Proof.
  intros Hprofile. unfold get_instance_pci_request_from_vif. rewrite Hprofile.
  split.
  - intros Hslot. by rewrite (profile_address _ _ Hslot).
  - intros addr e Hslot Haddr Hlookup Hother.
    rewrite (profile_address _ _ Hslot).
    destruct (String.eqb_spec addr ""); [done|]. by rewrite Hlookup, Hother.
Qed.

(** X19. The resolver never touches the alias cache nor draws a uuid, and it
    logs at most one warning: it logs the warning that names the host and
    the node of the instance, and returns no request, exactly when the VIF
    has an address and the compute-node lookup raises [NotFound] or an
    exception of a subclass of it; in every other case it logs nothing. *)
Theorem resolver_effects context instance vif st r st' :
  get_instance_pci_request_from_vif context instance vif st = (r, st') →
  alias_cache st' = alias_cache st
  ∧ uuid_calls st' = uuid_calls st
  ∧ (((∃ profile addr e,
         VIF.profile vif = Some profile
         ∧ profile !! "pci_slot" = Some addr
         ∧ addr ≠ ""
         ∧ get_by_host_and_nodename context (Instance.host instance)
                                    (Instance.node instance) = inl e
         ∧ isinstance_NotFound e = true)
      ∧ r = inr None
      ∧ warnings st'
        = (warnings st
           ++ [("expected to find compute node with host "
                ++ Instance.host instance ++ " and node "
                ++ Instance.node instance
                ++ " when getting instance PCI request from VIF")%string])%list)
     ∨ ((¬ ∃ profile addr e,
           VIF.profile vif = Some profile
           ∧ profile !! "pci_slot" = Some addr
           ∧ addr ≠ ""
           ∧ get_by_host_and_nodename context (Instance.host instance)
                                      (Instance.node instance) = inl e
           ∧ isinstance_NotFound e = true)
        ∧ warnings st' = warnings st)).
Proof.
  intros Hrun.
  destruct (VIF.profile vif) as [profile|] eqn:Hprofile.
  2: { unfold get_instance_pci_request_from_vif in Hrun. rewrite Hprofile in Hrun.
       injection Hrun as <- <-. repeat split; try done. right.
       split; [|done]. by intros (? & ? & ? & ? & _). }
  destruct (profile !! "pci_slot") as [addr|] eqn:Hslot.
  2: { unfold get_instance_pci_request_from_vif in Hrun.
       rewrite Hprofile, Hslot in Hrun.
       assert (r = inr None ∧ st' = st) as [-> ->].
       { destruct (bool_decide (profile ≠ ∅)); by injection Hrun as <- <-. }
       repeat split; try done. right. split; [|done].
       intros (? & ? & ? & [= <-] & Hslot' & _). by rewrite Hslot in Hslot'. }
  destruct (String.eqb_spec addr "") as [-> | Haddr].
  { unfold get_instance_pci_request_from_vif in Hrun.
    rewrite Hprofile, (profile_address _ _ Hslot) in Hrun. simpl in Hrun.
    injection Hrun as <- <-. repeat split; try done. right. split; [|done].
    intros (? & ? & ? & [= <-] & Hslot' & Hne & _).
    rewrite Hslot in Hslot'. by injection Hslot' as <-. }
  destruct (get_by_host_and_nodename context (Instance.host instance)
                                     (Instance.node instance))
    as [e|cn_id] eqn:Hlookup.
  - destruct (isinstance_NotFound e) eqn:Hcaught.
    + rewrite (not_found_is_logged _ _ _ _ _ _ _ Hprofile Hslot Haddr Hlookup Hcaught)
        in Hrun.
      injection Hrun as <- <-. simpl. repeat split; try done. left.
      split; [|done]. by exists profile, addr, e.
    + unfold get_instance_pci_request_from_vif in Hrun.
      rewrite Hprofile, (profile_address _ _ Hslot) in Hrun.
      destruct (String.eqb_spec addr ""); [done|].
      rewrite Hlookup, Hcaught in Hrun. injection Hrun as <- <-.
      repeat split; try done. right. split; [|done].
      intros (? & ? & e' & _ & _ & _ & [= <-] & Hcaught').
      by rewrite Hcaught in Hcaught'.
  - apply resolver_cases in Hrun
      as [[_ ->]|[(? & ? & Hl & _)|[(? & Hl & _)|Hfound]]].
    + repeat split; try done. right. split; [|done].
      by intros (? & ? & ? & _ & _ & _ & ? & _).
    + by rewrite Hlookup in Hl.
    + by rewrite Hlookup in Hl.
    + destruct Hfound as (? & ? & ? & ? & _ & _ & _ & _ & _ & _ & _ & -> & _).
      repeat split; try done. right. split; [|done].
      by intros (? & ? & ? & _ & _ & _ & ? & _).
Qed.

End MoreResolverFacts.

(** ** The further properties on the sample setting *)

#[local] Existing Instance Sample.externals.

(** The theorem X1 at an entry with blanks around its name. *)
Lemma read_alias_normalized_witness :
  PyStr.strip "gpu" = "gpu"
  ∧ ("socket" = LEGACY ∨ "socket" ∈ PCINUMAAffinityPolicy_ALL)
  ∧ (∀ t, ({[ "live_migratable" := "true" ]} : DeviceSpec) !! "dev_type"
          = Some t →
          t ∈ [STANDARD; SRIOV_PF; SRIOV_VF])
  ∧ (∀ k v, k ∈ ["vendor_id"; "product_id"] →
            ({[ "live_migratable" := "true" ]} : DeviceSpec) !! k = Some v →
            PCI_VENDOR_PATTERN v = true)
  ∧ (∀ v, ({[ "live_migratable" := "true" ]} : DeviceSpec) !! "live_migratable"
          = Some v →
          v = "true" ∨ v = "false")
  ∧ ({[ "live_migratable" := "true" ]} : DeviceSpec) !! "name" = None
  ∧ ({[ "live_migratable" := "true" ]} : DeviceSpec) !! "numa_policy" = None
  ∧ ({[ "live_migratable" := "true" ]} : DeviceSpec) !! "device_type" = None.
Proof.
  apply (read_alias_normalized
           (Sample.entry [("name", " gpu "); ("live_migratable", "Yes");
                          ("numa_policy", "socket")])
           "gpu" "socket" {[ "live_migratable" := "true" ]}).
  vm_compute. reflexivity.
Defined.

(** The theorem X2 at the two entries of the alias [gpu] and one of [a]. *)
Lemma built_table_invariants_witness :
  NoDup (ODict.keys [("gpu", ("legacy", [Sample.spec_a; Sample.spec_b]));
                     ("a", ("required", [Sample.spec_pf]))])
  ∧ ∀ name policy specs,
      (name, (policy, specs))
      ∈ [("gpu", ("legacy", [Sample.spec_a; Sample.spec_b]));
         ("a", ("required", [Sample.spec_pf]))] →
      specs ≠ []
      ∧ (pci_in_placement
           (Sample.conf [Sample.gpu_a; Sample.gpu_pf_a; Sample.gpu_b] false)
         = true → length specs = 1%nat)
      ∧ ∀ s, s ∈ specs →
             passes (pci_in_placement
                       (Sample.conf [Sample.gpu_a; Sample.gpu_pf_a; Sample.gpu_b]
                                    false)) s.
Proof.
  apply (built_table_invariants
           (Sample.conf [Sample.gpu_a; Sample.gpu_pf_a; Sample.gpu_b] false)).
  vm_compute. reflexivity.
Defined.

(** The theorem X3 at the same configuration. *)
Lemma merged_specs_share_type_witness :
  ∃ t, ∀ s, s ∈ [Sample.spec_a; Sample.spec_b] → s !! "dev_type" = Some t.
Proof.
  apply (merged_specs_share_type
           (Sample.conf [Sample.gpu_a; Sample.gpu_pf_a; Sample.gpu_b] false)
           [("gpu", ("legacy", [Sample.spec_a; Sample.spec_b]));
            ("a", ("required", [Sample.spec_pf]))]
           "gpu" "legacy").
  - vm_compute. reflexivity.
  - left.
  - simpl. lia.
Defined.

(** The theorem X4 at the same configuration: [gpu] comes before [a], and
    holds the specs of the first and the third entry. *)
Lemma table_groups_entries_witness :
  ∃ parsed,
    Forall2 (fun j p => read_alias j = inr p)
            (pci_alias
               (Sample.conf [Sample.gpu_a; Sample.gpu_pf_a; Sample.gpu_b] false))
            parsed
    ∧ ODict.keys [("gpu", ("legacy", [Sample.spec_a; Sample.spec_b]));
                  ("a", ("required", [Sample.spec_pf]))]
      = first_seen (map (fun p => fst (fst p)) parsed)
    ∧ (∀ name,
         ODict.get name [("gpu", ("legacy", [Sample.spec_a; Sample.spec_b]));
                         ("a", ("required", [Sample.spec_pf]))]
         = match policy_named name parsed with
           | Some policy => Some (policy, specs_named name parsed)
           | None => None
           end)
    ∧ Forall (fun p => ∃ specs,
                ODict.get (fst (fst p))
                          [("gpu", ("legacy", [Sample.spec_a; Sample.spec_b]));
                           ("a", ("required", [Sample.spec_pf]))]
                = Some (snd (fst p), specs)
                ∧ snd p ∈ specs) parsed.
Proof.
  apply (table_groups_entries
           (Sample.conf [Sample.gpu_a; Sample.gpu_pf_a; Sample.gpu_b] false)).
  vm_compute. reflexivity.
Defined.


Example first_bad_entry_ex :
  get_alias_from_config_wrapped
    (Sample.conf [Sample.gpu_a;
                  Sample.entry [("name", "gpu"); ("live_migratable", "maybe")]]
                 false)
  = inl (PciInvalidAlias
           None
           (Some ("Unrecognized value 'maybe', acceptable values are: '0', '1', "
                  ++ "'f', 'false', 'n', 'no', 'off', 'on', 't', 'true', 'y', "
                  ++ "'yes'"))).
Proof. vm_compute. reflexivity. Qed.

(** The theorem X7 at the table of [bare_b] and [bare_a] and its reverse. *)
Lemma required_ids_order_free_witness :
  _validate_required_ids (Sample.conf [] false) Sample.bare_table
  = _validate_required_ids (Sample.conf [] false) (reverse Sample.bare_table).
Proof.
  apply (required_ids_order_free (Sample.conf [] false) Sample.bare_table
           (reverse Sample.bare_table)).
  symmetry. apply reverse_Permutation.
Defined.

(** The theorem X8 at the first call under the configuration of [gpu_a]. *)
Lemma cache_keeps_first_table_witness :
  alias_cache Sample.gpu_cached = Some Sample.gpu_table
  ∧ uuid_calls Sample.gpu_cached = uuid_calls Sample.start
  ∧ warnings Sample.gpu_cached = warnings Sample.start
  ∧ ∀ CONF',
      get_alias_from_config CONF' Sample.gpu_cached
      = (inr Sample.gpu_table, Sample.gpu_cached).
Proof.
  apply (cache_keeps_first_table (Sample.conf [Sample.gpu_a] false)
           Sample.start Sample.gpu_table Sample.gpu_cached).
  vm_compute. reflexivity.
Defined.

(** The theorem X9 at a configuration with two device types under one
    name. *)
Lemma failure_is_not_cached_witness :
  Sample.start = Sample.start
  ∧ alias_cache Sample.start = None
  ∧ (∃ message reason,
       PciInvalidAlias None (Some "Device type mismatch for alias 'gpu'")
       = PciInvalidAlias message reason)
  ∧ ∀ CONF' aliases,
      get_alias_from_config_wrapped CONF' = inr aliases →
      fst (get_alias_from_config CONF' Sample.start) = inr aliases.
Proof.
  apply (failure_is_not_cached
           (Sample.conf [Sample.gpu_a; Sample.gpu_pf] false) Sample.start
           (PciInvalidAlias None (Some "Device type mismatch for alias 'gpu'"))
           Sample.start).
  vm_compute. reflexivity.
Defined.

(** The theorem X10 at the table of [gpu_a]. *)
Lemma translate_succeeds_iff_witness :
  (∃ reqs st2,
     _translate_alias_to_requests (Sample.conf [Sample.gpu_a] false)
                                  "gpu:1, gpu :2" None Sample.start
     = (inr reqs, st2))
  ↔ Forall (well_formed Sample.gpu_table None)
            (PyStr.split "," "gpu:1, gpu :2").
Proof.
  apply (translate_succeeds_iff (Sample.conf [Sample.gpu_a] false)
           "gpu:1, gpu :2" None Sample.start Sample.gpu_table Sample.gpu_cached).
  vm_compute. reflexivity.
Defined.

(** The theorem X11 at a string whose second piece names no alias and has
    no readable count. *)
Lemma translate_undefined_alias_witness :
  _translate_alias_to_requests (Sample.conf [Sample.gpu_a] false)
                               "gpu:1, tpu :x" None Sample.start
  = (inl (PciRequestAliasNotDefined (PyStr.strip " tpu ")),
     {| alias_cache := Some Sample.gpu_table;
        uuid_calls := (uuid_calls Sample.start + length ["gpu:1"])%nat;
        warnings := warnings Sample.start |}).
Proof.
  apply (translate_undefined_alias (Sample.conf [Sample.gpu_a] false)
           "gpu:1, tpu :x" None Sample.start Sample.gpu_table Sample.gpu_cached
           ["gpu:1"] " tpu :x" [] " tpu " "x");
    try (vm_compute; reflexivity).
  constructor; [|constructor].
  exists "gpu", "1", "legacy", [Sample.spec_a], 1%Z.
  split; [vm_compute; reflexivity|]. split; [vm_compute; reflexivity|].
  split; [vm_compute; reflexivity|]. compute_done.
Defined.

(** The theorem X12 at a string that ends with a comma. *)
Lemma translate_malformed_witness :
  ∃ msg,
    _translate_alias_to_requests (Sample.conf [Sample.gpu_a] false)
                                 "gpu:1," None Sample.start
    = (inl (ValueError msg),
       {| alias_cache := Some Sample.gpu_table;
          uuid_calls := (uuid_calls Sample.start + length ["gpu:1"])%nat;
          warnings := warnings Sample.start |}).
Proof.
  apply (translate_malformed (Sample.conf [Sample.gpu_a] false)
           "gpu:1," None Sample.start Sample.gpu_table Sample.gpu_cached
           ["gpu:1"] "" []);
    try (vm_compute; reflexivity).
  - constructor; [|constructor].
    exists "gpu", "1", "legacy", [Sample.spec_a], 1%Z.
    split; [vm_compute; reflexivity|]. split; [vm_compute; reflexivity|].
    split; [vm_compute; reflexivity|]. compute_done.
  - left. vm_compute. discriminate.
Defined.

(** The theorem X21 at an override that is no NUMA policy. *)
Lemma translate_refused_policy_witness :
  _translate_alias_to_requests (Sample.conf [Sample.gpu_a] false)
                               "gpu:1,gpu:2" (Some "bogus") Sample.start
  = (inl (ValueError ("Field value " ++ or_ (Some "bogus") "legacy"
                      ++ " is invalid")),
     {| alias_cache := Some Sample.gpu_table;
        uuid_calls := S (uuid_calls Sample.start + length (@nil string));
        warnings := warnings Sample.start |}).
Proof.
  apply (translate_refused_policy (Sample.conf [Sample.gpu_a] false)
           "gpu:1,gpu:2" (Some "bogus") Sample.start Sample.gpu_table
           Sample.gpu_cached [] "gpu:1" ["gpu:2"] "gpu" "1" "legacy"
           [Sample.spec_a] 1%Z).
  - vm_compute. reflexivity.
  - vm_compute. reflexivity.
  - constructor.
  - vm_compute. reflexivity.
  - vm_compute. reflexivity.
  - vm_compute. reflexivity.
  - compute_done.
Defined.

Example translate_refused_policy_ex :
  _translate_alias_to_requests (Sample.conf [Sample.gpu_a] false)
                               "gpu:1,gpu:2" (Some "bogus") Sample.start
  = (inl (ValueError "Field value bogus is invalid"),
     {| alias_cache := Some Sample.gpu_table;
        uuid_calls := 1;
        warnings := [] |}).
Proof. vm_compute. reflexivity. Qed.

Example translate_empty_ex :
  fst (_translate_alias_to_requests (Sample.conf [Sample.gpu_a] false) ""
         None Sample.start)
  = inl (ValueError "not enough values to unpack (expected 2, got 1)").
Proof. vm_compute. reflexivity. Qed.

(** The theorem X13 at the translation of "gpu:2". *)
Lemma translate_requests_sound_witness :
  ∃ aliases,
    alias_cache {| alias_cache := Some Sample.gpu_table;
                   uuid_calls := 1;
                   warnings := [] |} = Some aliases
    ∧ (∀ old, alias_cache Sample.start = Some old → old = aliases)
    ∧ length [Sample.request_0] = length (PyStr.split "," "gpu:1")
    ∧ uuid_calls {| alias_cache := Some Sample.gpu_table;
                    uuid_calls := 1;
                    warnings := [] |}
      = (uuid_calls Sample.start + length [Sample.request_0])%nat
    ∧ warnings {| alias_cache := Some Sample.gpu_table;
                  uuid_calls := 1;
                  warnings := [] |} = warnings Sample.start
    ∧ Forall (fun req =>
                ∃ name policy id,
                  InstancePCIRequest.alias_name req = Some name
                  ∧ ODict.get name aliases
                    = Some (policy, InstancePCIRequest.spec req)
                  ∧ InstancePCIRequest.request_id req = Some id)
             [Sample.request_0].
Proof.
  apply (translate_requests_sound (Sample.conf [Sample.gpu_a] false) "gpu:1"
           None Sample.start).
  vm_compute. reflexivity.
Defined.

(** The theorem X14 at the translation of "gpu:1" under the override
    "preferred". *)
Lemma override_applies_to_all_witness :
  Forall (fun req => InstancePCIRequest.numa_policy req = Some "preferred")
         [ {| InstancePCIRequest.count := 1;
              InstancePCIRequest.spec := [Sample.spec_a];
              InstancePCIRequest.alias_name := Some "gpu";
              InstancePCIRequest.numa_policy := Some "preferred";
              InstancePCIRequest.request_id := Some "uuid-" |} ].
Proof.
  destruct (override_applies_to_all
              (Sample.conf [Sample.gpu_a] false) "gpu:1"
              (Some "preferred") Sample.start
              [ {| InstancePCIRequest.count := 1;
                   InstancePCIRequest.spec := [Sample.spec_a];
                   InstancePCIRequest.alias_name := Some "gpu";
                   InstancePCIRequest.numa_policy := Some "preferred";
                   InstancePCIRequest.request_id := Some "uuid-" |} ]
              {| alias_cache := Some Sample.gpu_table;
                 uuid_calls := 1;
                 warnings := [] |}) as [Hall _].
  - vm_compute. reflexivity.
  - apply (Hall "preferred"); [reflexivity|discriminate].
Defined.

(** The theorem X15 at a flavor without extra specs, under a configuration
    that builds no table. *)
Lemma flavor_requests_witness :
  get_pci_requests_from_flavor
    (Sample.conf [Sample.gpu_a; Sample.gpu_pf] false)
    {| Flavor.extra_specs := None |} None Sample.start
  = (inr {| InstancePCIRequests.requests := [] |}, Sample.start).
Proof.
  apply (proj1 (flavor_requests
                  (Sample.conf [Sample.gpu_a; Sample.gpu_pf] false)
                  {| Flavor.extra_specs := None |} None Sample.start)).
  intros extra. discriminate.
Defined.

(** The theorem X16 at the instance whose second request is behind the
    device of the VIF. *)
Lemma resolved_request_is_bound_witness :
  Sample.start = Sample.start
  ∧ Sample.request_1
    ∈ InstancePCIRequests.requests
        (Instance.pci_requests
           (Sample.instance_at "host1" [Sample.request_0; Sample.request_1]))
  ∧ ∃ profile addr cn_id dev,
      VIF.profile Sample.vif_pci = Some profile
      ∧ profile !! "pci_slot" = Some addr
      ∧ get_by_host_and_nodename Sample.context
          (Instance.host
             (Sample.instance_at "host1" [Sample.request_0; Sample.request_1]))
          (Instance.node
             (Sample.instance_at "host1" [Sample.request_0; Sample.request_1]))
        = inr cn_id
      ∧ dev ∈ Instance.pci_devices
                (Sample.instance_at "host1" [Sample.request_0; Sample.request_1])
      ∧ PciDevice.compute_node_id dev = cn_id
      ∧ PciDevice.address dev = addr
      ∧ InstancePCIRequest.request_id Sample.request_1
        = PciDevice.request_id dev.
Proof.
  apply (resolved_request_is_bound Sample.context
           (Sample.instance_at "host1" [Sample.request_0; Sample.request_1])
           Sample.vif_pci Sample.start Sample.request_1 Sample.start).
  vm_compute. reflexivity.
Defined.

(** The theorem X17 at the instance that lacks the request of its device. *)
Lemma resolver_raises_witness :
  Sample.start = Sample.start
  ∧ ((∃ profile addr cn_id dev,
        PciRequestFromVIFNotFound "0000:81:00.1" 7
        = PciRequestFromVIFNotFound addr cn_id
        ∧ VIF.profile Sample.vif_pci = Some profile
        ∧ profile !! "pci_slot" = Some addr
        ∧ get_by_host_and_nodename Sample.context
            (Instance.host (Sample.instance_at "host1" [Sample.request_0]))
            (Instance.node (Sample.instance_at "host1" [Sample.request_0]))
          = inr cn_id
        ∧ dev ∈ Instance.pci_devices
                  (Sample.instance_at "host1" [Sample.request_0])
        ∧ PciDevice.compute_node_id dev = cn_id
        ∧ PciDevice.address dev = addr
        ∧ ∀ req,
            req ∈ InstancePCIRequests.requests
                    (Instance.pci_requests
                       (Sample.instance_at "host1" [Sample.request_0])) →
            InstancePCIRequest.request_id req ≠ PciDevice.request_id dev)
     ∨ (get_by_host_and_nodename Sample.context
          (Instance.host (Sample.instance_at "host1" [Sample.request_0]))
          (Instance.node (Sample.instance_at "host1" [Sample.request_0]))
        = inl (PciRequestFromVIFNotFound "0000:81:00.1" 7)
        ∧ ∀ message,
            PciRequestFromVIFNotFound "0000:81:00.1" 7 ≠ NotFound message)).
Proof.
  apply (resolver_raises Sample.context
           (Sample.instance_at "host1" [Sample.request_0]) Sample.vif_pci
           Sample.start (PciRequestFromVIFNotFound "0000:81:00.1" 7)
           Sample.start).
  vm_compute. reflexivity.
Defined.

(** The theorem X18 at a VIF whose [pci_slot] is the empty string. *)
Lemma resolver_and_lookup_witness :
  get_instance_pci_request_from_vif Sample.context
    (Sample.instance_at "host1" [Sample.request_0])
    {| VIF.profile := Some {[ "pci_slot" := "" ]} |} Sample.start
  = (inr None, Sample.start).
Proof.
  apply (proj1 (resolver_and_lookup Sample.context
                  (Sample.instance_at "host1" [Sample.request_0])
                  {| VIF.profile := Some {[ "pci_slot" := "" ]} |}
                  Sample.start {[ "pci_slot" := "" ]} eq_refl)).
  vm_compute. reflexivity.
Defined.

(** The theorem X19 at an instance on a host that the lookup does not
    know. *)
Lemma resolver_effects_witness :
  alias_cache
    (snd (get_instance_pci_request_from_vif Sample.context
            (Sample.instance_at "host2" [Sample.request_0]) Sample.vif_pci
            Sample.gpu_cached))
  = alias_cache Sample.gpu_cached
  ∧ uuid_calls
      (snd (get_instance_pci_request_from_vif Sample.context
              (Sample.instance_at "host2" [Sample.request_0]) Sample.vif_pci
              Sample.gpu_cached))
    = uuid_calls Sample.gpu_cached
  ∧ (((∃ profile addr e,
         VIF.profile Sample.vif_pci = Some profile
         ∧ profile !! "pci_slot" = Some addr
         ∧ addr ≠ ""
         ∧ get_by_host_and_nodename Sample.context
             (Instance.host (Sample.instance_at "host2" [Sample.request_0]))
             (Instance.node (Sample.instance_at "host2" [Sample.request_0]))
           = inl e
         ∧ isinstance_NotFound e = true)
      ∧ fst (get_instance_pci_request_from_vif Sample.context
               (Sample.instance_at "host2" [Sample.request_0])
               Sample.vif_pci Sample.gpu_cached)
        = inr None
      ∧ warnings
          (snd (get_instance_pci_request_from_vif Sample.context
                  (Sample.instance_at "host2" [Sample.request_0])
                  Sample.vif_pci Sample.gpu_cached))
        = (warnings Sample.gpu_cached
           ++ [("expected to find compute node with host "
                ++ Instance.host (Sample.instance_at "host2" [Sample.request_0])
                ++ " and node "
                ++ Instance.node (Sample.instance_at "host2" [Sample.request_0])
                ++ " when getting instance PCI request from VIF")%string])%list)
     ∨ ((¬ ∃ profile addr e,
           VIF.profile Sample.vif_pci = Some profile
           ∧ profile !! "pci_slot" = Some addr
           ∧ addr ≠ ""
           ∧ get_by_host_and_nodename Sample.context
               (Instance.host (Sample.instance_at "host2" [Sample.request_0]))
               (Instance.node (Sample.instance_at "host2" [Sample.request_0]))
             = inl e
           ∧ isinstance_NotFound e = true)
        ∧ warnings
            (snd (get_instance_pci_request_from_vif Sample.context
                    (Sample.instance_at "host2" [Sample.request_0])
                    Sample.vif_pci Sample.gpu_cached))
          = warnings Sample.gpu_cached)).
Proof.
  apply (resolver_effects Sample.context
           (Sample.instance_at "host2" [Sample.request_0]) Sample.vif_pci
           Sample.gpu_cached).
  apply surjective_pairing.
Defined.

(** The warning of that call. *)
Example resolver_warning_ex :
  get_instance_pci_request_from_vif Sample.context
    (Sample.instance_at "host2" [Sample.request_0]) Sample.vif_pci Sample.start
  = (inr None,
     {| alias_cache := None;
        uuid_calls := 0;
        warnings := ["expected to find compute node with host host2 and node "
                     ++ "node1 when getting instance PCI request from VIF"] |}).
Proof. vm_compute. reflexivity. Qed.

(** The theorem X20 at two translations against the table of [gpu_a]. *)
Lemma translations_share_no_id_witness :
  NoDup (map InstancePCIRequest.request_id
             ([Sample.request_0]
              ++ [ {| InstancePCIRequest.count := 2;
                      InstancePCIRequest.spec := [Sample.spec_a];
                      InstancePCIRequest.alias_name := Some "gpu";
                      InstancePCIRequest.numa_policy := Some "legacy";
                      InstancePCIRequest.request_id := Some "uuid-1" |} ])).
Proof.
  apply (translations_share_no_id
           (Sample.conf [Sample.gpu_a] false) (Sample.conf [] true)
           "gpu:1" "gpu:2" None None Sample.start _
           {| alias_cache := Some Sample.gpu_table;
              uuid_calls := 1;
              warnings := [] |}
           _
           {| alias_cache := Some Sample.gpu_table;
              uuid_calls := 2;
              warnings := [] |}).
  - apply sample_uuid_fresh.
  - vm_compute. reflexivity.
  - vm_compute. reflexivity.
Defined.
